(** * Asymmetric grid back-test engine: [run_strategy_logic]

    A shallow embedding of the back-test engine of the A-share asymmetric
    grid strategy (function [run_strategy_logic] of the Streamlit script),
    of the NumPy array operations it calls, of the sidebar search and of
    the loop of the page that runs the engine once per period.

    The engine is written once, over an interface [Num] of the arithmetic
    the Python code performs on its numbers.  The instance is [Binary64]:
    the kernel's IEEE 754 binary64 floats, the numbers NumPy and Python
    compute with, rounding, signed zeros, infinities and NaN included.

    What the section [EngineFacts] proves holds whatever the arithmetic,
    hence of binary64.  What depends on the numbers is proved of binary64
    itself, from the specification of its operations ([FloatAxioms]), or
    evaluated on concrete series.

    Python's [int] values ([cash] before the first sale, the counters, a
    whole [amt]) enter the arithmetic through [of_Z], the exact conversion
    NumPy applies to them.  The data frame is the list of its rows, a date
    and a close each. *)

From Stdlib Require Import List Bool Arith ZArith Lia.
From Stdlib Require Floats Uint63 String.
Import ListNotations.

Set Implicit Arguments.

(** ** Exceptions and fallible results *)

(** The two Python exceptions the NumPy calls of the engine can raise:
    indexing [a[-1]] of an empty array, and reducing an empty array. *)
Inductive exn : Type :=
| IndexError
| ValueError.

Inductive result (A : Type) : Type :=
| Ok (a : A)
| Raise (e : exn).

Arguments Ok {A} a.
Arguments Raise {A} e.

Definition bind {A B : Type} (r : result A) (k : A -> result B) : result B :=
  match r with
  | Ok a => k a
  | Raise e => Raise e
  end.

Notation "x <- r ;; k" := (bind r (fun x => k))
  (at level 61, r at next level, right associativity).

(** ** The arithmetic interface *)

Declare Scope num_scope.
Delimit Scope num_scope with num.

Class Num (F : Type) : Type := {
  of_Z : Z -> F;          (* an [int] used where a float is expected *)
  add : F -> F -> F;
  sub : F -> F -> F;
  mul : F -> F -> F;
  div : F -> F -> F;       (* NumPy true division: never raises *)
  neg : F -> F;
  leb : F -> F -> bool;
  ltb : F -> F -> bool;
  eqb : F -> F -> bool;
  isnan : F -> bool
}.

Infix "+" := add : num_scope.
Infix "-" := sub : num_scope.
Infix "*" := mul : num_scope.
Infix "/" := div : num_scope.
Notation "- x" := (neg x) : num_scope.
Infix "<=?" := leb : num_scope.
Infix "<?" := ltb : num_scope.
Infix "=?" := eqb : num_scope.

Definition of_nat {F : Type} `{Num F} (n : nat) : F := of_Z (Z.of_nat n).

(** ** The engine *)

Section Engine.

Context {F : Type} {numF : Num F}.
Variable Date : Type.

Local Open Scope num_scope.

Notation "0" := (of_Z 0%Z) : num_scope.
Notation "1" := (of_Z 1%Z) : num_scope.
Notation "100" := (of_Z 100%Z) : num_scope.

(** *** NumPy and Python primitives *)

(** [np.diff(a)]: [a[i+1] - a[i]]. *)
Fixpoint np_diff (a : list F) : list F :=
  match a with
  | x :: (y :: _) as t => (y - x) :: np_diff t
  | _ => []
  end.

(** An arithmetic operator applied to two arrays of the same shape. *)
Definition elementwise (op : F -> F -> F) (a b : list F) : list F :=
  map (fun xy => op (fst xy) (snd xy)) (combine a b).

(** [a[-1]]. *)
Definition last_item (a : list F) : result F :=
  match a with
  | [] => Raise IndexError
  | x :: t => Ok (last t x)
  end.

(** Python's [min(a, b)]: [b] replaces [a] only when [b < a]. *)
Definition py_min (a b : F) : F := if b <? a then b else a.

(** [np.maximum]: a NaN operand is returned, the first one first. *)
Definition np_maximum (a b : F) : F :=
  if isnan a then a else if isnan b then b else if a <? b then b else a.

Fixpoint accumulate (op : F -> F -> F) (acc : F) (a : list F) : list F :=
  match a with
  | [] => []
  | x :: t => let m := op acc x in m :: accumulate op m t
  end.

(** [np.maximum.accumulate(a)]: the running maximum. *)
Definition np_maximum_accumulate (a : list F) : list F :=
  match a with
  | [] => []
  | x :: t => x :: accumulate np_maximum x t
  end.

(** [np.fmin]: a NaN operand is ignored. *)
Definition np_fmin (a b : F) : F :=
  if isnan a then b else if isnan b then a else if b <? a then b else a.

(** [np.nanmin(a)]: the reduction of [a] by [np.fmin]. *)
Definition np_nanmin (a : list F) : result F :=
  match a with
  | [] => Raise ValueError
  | x :: t => Ok (fold_left np_fmin t x)
  end.

(** [a.any()]: some element is not zero. *)
Definition np_any (a : list F) : bool :=
  existsb (fun x => negb (x =? 0)) a.

(** [a.mean()] of an array of booleans. *)
Definition mean_bool (a : list bool) : F :=
  of_nat (count_occ bool_dec a true) / of_nat (length a).

(** *** The data *)

(** One row of the data frame: its index (the date) and its ['Close']. *)
Definition frame : Type := list (Date * F).

Definition closes (df : frame) : list F := map snd df.
Definition index (df : frame) : list Date := map fst df.

(** The variables of the loop. *)
Record state : Type := mkState {
  cash : F;
  shares : F;
  b_cnt : nat;
  s_cnt : nat;
  history : list F
}.

Definition init_state : state := mkState 0 0 0%nat 0%nat [].

(** The tuple [run_strategy_logic] returns. *)
Record outcome : Type := mkOutcome {
  out_history : list F;
  out_index : list Date;
  out_b_cnt : nat;
  out_s_cnt : nat;
  cum_ret : F;
  mdd : F;
  win_rate : F;
  final_value : F
}.

(** *** The parameters *)

Variables b_pct s_pct amt : F.

(** [changes = np.insert(np.diff(prices) / prices[:-1], 0, 0)] *)
Definition changes (prices : list F) : list F :=
  0 :: elementwise div (np_diff prices) (removelast prices).

(** The [if]/[elif] of the loop body: the trade of one day. *)
Definition trade (st : state) (p c : F) : state :=
  if c <=? (- b_pct) / 100 then
    mkState (cash st - amt) (shares st + amt / p)
            (S (b_cnt st)) (s_cnt st) (history st)
  else if (s_pct / 100 <=? c) && (0 <? shares st) then
    let val := py_min amt (shares st * p) in
    mkState (cash st + val) (shares st - val / p)
            (b_cnt st) (S (s_cnt st)) (history st)
  else st.

(** [history.append(shares * p + cash)] *)
Definition record_equity (st : state) (p : F) : state :=
  mkState (cash st) (shares st) (b_cnt st) (s_cnt st)
          (history st ++ [shares st * p + cash st]).

(** The body of [for p, c in zip(prices, changes)]. *)
Definition day (st : state) (pc : F * F) : state :=
  record_equity (trade st (fst pc) (snd pc)) (fst pc).

Definition loop (prices : list F) : state :=
  fold_left day (combine prices (changes prices)) init_state.

(** The statistics computed after the loop. *)
Definition win_rate_of (h_arr : list F) : F :=
  if (1 <? length h_arr)%nat
  then mean_bool (map (fun d => 0 <? d) (np_diff h_arr))
  else 0.

Definition cum_ret_of (h_arr : list F) (total_inv : F) : result F :=
  if 0 <? total_inv
  then last <- last_item h_arr ;; Ok (last / total_inv - 1)
  else Ok 0.

Definition mdd_of (h_arr : list F) : result F :=
  let peak := np_maximum_accumulate h_arr in
  if np_any peak
  then np_nanmin (elementwise div (elementwise sub h_arr peak) peak)
  else Ok 0.

(** The change of day [i] as the specification defines it: zero on day 0,
    then the move of the close [p] relative to the close of the day before. *)
Definition spec_change (prices : list F) (i : nat) (p : F) : F :=
  match i with
  | O => 0
  | S j =>
      match nth_error prices j with
      | Some q => (p - q) / q
      | None => 0
      end
  end.

(** The variables of the loop once its first [n] iterations are done. *)
Definition state_after (prices : list F) (n : nat) : state :=
  fold_left day (firstn n (combine prices (changes prices))) init_state.




(** The number of days whose equity is above the equity of the day
    before. *)
Fixpoint rises (E : list F) : nat :=
  match E with
  | x :: (y :: _) as t => Nat.add (if x <? y then 1%nat else 0%nat) (rises t)
  | _ => 0%nat
  end.

Definition run_strategy_logic (df : frame) : result outcome :=
  let prices := closes df in
  let st := loop prices in
  let h_arr := history st in
  let win_rate := win_rate_of h_arr in
  let total_inv := of_nat (b_cnt st) * amt in
  cum_ret <- cum_ret_of h_arr total_inv ;;
  mdd <- mdd_of h_arr ;;
  last_price <- last_item prices ;;
  Ok (mkOutcome (history st) (index df) (b_cnt st) (s_cnt st)
                cum_ret mdd win_rate (shares st * last_price)).

End Engine.

(** ** IEEE 754 binary64 *)

Module Binary64.

(** The float nearest to an integer (below [2^63] in absolute value). *)
Definition float_of_Z (z : Z) : PrimFloat.float :=
  match z with
  | Z0 => PrimFloat.zero
  | Zpos _ => PrimFloat.of_uint63 (Uint63.of_Z z)
  | Zneg p => PrimFloat.opp (PrimFloat.of_uint63 (Uint63.of_Z (Zpos p)))
  end.

#[export] Instance float_num : Num PrimFloat.float := {|
  of_Z := float_of_Z;
  add := PrimFloat.add;
  sub := PrimFloat.sub;
  mul := PrimFloat.mul;
  div := PrimFloat.div;
  neg := PrimFloat.opp;
  leb := PrimFloat.leb;
  ltb := PrimFloat.ltb;
  eqb := PrimFloat.eqb;
  isnan := PrimFloat.is_nan
|}.

(** A quotient of two integers, to write a price such as [100.5]. *)
Definition ratio (n d : Z) : PrimFloat.float :=
  PrimFloat.div (float_of_Z n) (float_of_Z d).

(** The defaults of the three widgets: 1.0 %, 1.5 % and 1000. *)
Definition float_b : PrimFloat.float := float_of_Z 1.
Definition float_s : PrimFloat.float := ratio 3 2.
Definition float_amt : PrimFloat.float := float_of_Z 1000.

(** The smallest binary64 number above zero, [2^-1074] (about [5e-324]). *)
Definition tiny : PrimFloat.float := PrimFloat.next_up PrimFloat.zero.

(** A close as the data source delivers it: a finite number above zero. *)
Definition positive_finite (p : PrimFloat.float) : bool :=
  PrimFloat.is_finite p && PrimFloat.ltb PrimFloat.zero p.

(** The buy level [-b_pct / 100], as binary64 computes it, is below zero.
    It is not for a [b_pct] so small that the quotient underflows to
    [-0.0]. *)
Definition buy_level_below_zero (b_pct : PrimFloat.float) : bool :=
  PrimFloat.ltb (PrimFloat.div (PrimFloat.opp b_pct) (float_of_Z 100))
                PrimFloat.zero.

(** A frame of the given closes, dated 0, 1, 2, ... *)
Definition dated (prices : list PrimFloat.float)
  : list (nat * PrimFloat.float) :=
  combine (seq 0 (length prices)) prices.

(** Four closes, each a binary64 number: 100, 99, 100.5 and 107.5. *)
Definition rounding_example : list PrimFloat.float :=
  [float_of_Z 100; float_of_Z 99; ratio 201 2; ratio 215 2].

(** The example of the specification: 100, 99, 100.5 and 102. *)
Definition spec_example : list PrimFloat.float :=
  [float_of_Z 100; float_of_Z 99; ratio 201 2; float_of_Z 102].

(** Two falls in a row, then a rise: 100, 99, 98 and 105. *)
Definition two_falls_example : list PrimFloat.float :=
  [float_of_Z 100; float_of_Z 99; float_of_Z 98; float_of_Z 105].

(** A fall of 2 %: 100 and 98. *)
Definition two_rows : list PrimFloat.float :=
  [float_of_Z 100; float_of_Z 98].

End Binary64.

(** ** The sidebar search: from a company name to a ticker *)

Module Search.

Import Stdlib.Strings.String.

Local Open Scope string_scope.

(** [STOCK_DICT], in the order it is written.  Strings are the UTF-8 bytes
    of the Python strings; a search for the bytes of a well-formed string
    finds exactly the occurrences of its characters. *)
Definition STOCK_DICT : list (string * string) :=
  [("沪深300ETF", "510300.SS");
   ("贵州茅台", "600519.SS");
   ("宁德时代", "300750.SZ");
   ("招商银行", "600036.SS");
   ("中国平安", "601318.SS");
   ("五粮液", "000858.SZ");
   ("中芯国际", "688981.SS");
   ("比亚迪", "002594.SZ");
   ("东方财富", "300059.SZ");
   ("上证指数", "000001.SS")].

(** Python's [needle in hay] on strings. *)
Fixpoint contains (needle hay : string) : bool :=
  prefix needle hay ||
  match hay with
  | EmptyString => false
  | String _ rest => contains needle rest
  end.

(** [[v for k, v in STOCK_DICT.items() if search_query in k]] *)
Definition matches (search_query : string) : list string :=
  map snd (filter (fun kv => contains search_query (fst kv)) STOCK_DICT).

(** The message shown in the sidebar, if any. *)
Inductive notice : Type :=
| NoNotice
| Success (code : string)
| Warning.

(** The search block: [auto_code] and the message. *)
Definition search (search_query : string) : string * notice :=
  match search_query with
  | EmptyString => ("", NoNotice)
  | _ =>
      match matches search_query with
      | code :: _ => (code, Success code)
      | [] => ("", Warning)
      end
  end.

Definition auto_code (search_query : string) : string :=
  fst (search search_query).

(** The value the ticker box starts with:
    [auto_code if auto_code else "510300.SS"]. *)
Definition ticker_default (search_query : string) : string :=
  match auto_code search_query with
  | EmptyString => "510300.SS"
  | code => code
  end.

End Search.

(** ** The page: one back-test per period *)

Section Page.

Import Stdlib.Strings.String.

Context {F : Type} {numF : Num F}.
Variable Date : Type.

(** The two options of the radio widget. *)
Inductive view_mode : Type :=
| Structured     (* three bull markets side by side *)
| Panorama.      (* 2015 to today *)

(** A period: start, end and label. *)
Definition period : Type := (string * string * string)%type.

(** [periods], [today] being [datetime.now().strftime('%Y-%m-%d')]. *)
Definition periods (mode : view_mode) (today : string) : list period :=
  match mode with
  | Structured =>
      [("2016-01-01", "2017-12-31", "2016-2017 蓝筹牛");
       ("2019-01-01", "2021-02-10", "2019-2021 赛道牛");
       ("2024-09-24", today, "2024-至今 政策牛")]%string
  | Panorama =>
      [("2015-01-01", today, "2015-至今 历史全景")]%string
  end.

(** The number of columns asked of [st.columns]. *)
Definition columns (mode : view_mode) : nat :=
  match mode with
  | Structured => 3
  | Panorama => 1
  end.

(** A row of [results_list]. *)
Record summary_row : Type := mkRow {
  row_label : string;
  row_buys : nat;
  row_sells : nat;
  row_cum_ret : string;
  row_mdd : string;
  row_win_rate : string;
  row_total : nat;
  row_value : string
}.

(** A chart drawn in a column: its title, dates and net asset values. *)
Record chart : Type := mkChart {
  chart_column : nat;
  chart_title : string;
  chart_x : list Date;
  chart_y : list F
}.

(** The formats [{:.2%}], [{:.1%}] and [{:,.0f}] of the f-strings. *)
Variables fmt_pct2 fmt_pct1 fmt_money : F -> string.

(** The data source: [get_stock_data(ticker, start, end)] as the frame of
    the rows it returned, empty when the download failed. *)
Variable get_stock_data : string -> string -> string -> frame (F := F) Date.

(** The values read from the sidebar. *)
Variable ticker_input : string.
Variables buy_pct sell_pct trade_amt : F.

(** [cols[idx]] *)
Definition column_at (ncols idx : nat) : result nat :=
  if (idx <? ncols)%nat then Ok idx else Raise IndexError.

(** The body of [for idx, (s, e, label) in enumerate(periods)]. *)
Definition page_step (ncols : nat)
           (acc : list summary_row * list chart) (ip : nat * period)
  : result (list summary_row * list chart) :=
  let '(idx, (s, e, label)) := ip in
  let df := get_stock_data ticker_input s e in
  match df with
  | [] => Ok acc
  | _ :: _ =>
      o <- run_strategy_logic buy_pct sell_pct trade_amt df ;;
      let row :=
        mkRow label (out_b_cnt o) (out_s_cnt o)
              (fmt_pct2 (cum_ret o)) (fmt_pct2 (mdd o)) (fmt_pct1 (win_rate o))
              (out_b_cnt o + out_s_cnt o) (fmt_money (final_value o)) in
      col <- column_at ncols idx ;;
      Ok (fst acc ++ [row],
          snd acc ++ [mkChart col label (out_index o) (out_history o)])
  end.

Fixpoint page_loop (ncols : nat) (l : list (nat * period))
         (acc : list summary_row * list chart)
  : result (list summary_row * list chart) :=
  match l with
  | [] => Ok acc
  | ip :: rest => acc' <- page_step ncols acc ip ;; page_loop ncols rest acc'
  end.

(** [enumerate(a)] *)
Definition enumerate (A : Type) (a : list A) : list (nat * A) :=
  combine (seq 0 (List.length a)) a.

(** The main view: the rows of the summary table and the charts drawn. *)
Definition page (mode : view_mode) (today : string)
  : result (list summary_row * list chart) :=
  page_loop (columns mode) (enumerate (periods mode today)) ([], []).

(** The periods for which the data source has rows. *)
Definition has_data (p : period) : bool :=
  match get_stock_data ticker_input (fst (fst p)) (snd (fst p)) with
  | [] => false
  | _ :: _ => true
  end.

End Page.

(** * Properties of the engine, whatever the arithmetic *)

Section EngineFacts.

Context {F : Type} {numF : Num F}.
Variable Date : Type.
Variables b_pct s_pct amt : F.

Local Open Scope num_scope.

Local Abbreviation day' := (day b_pct s_pct amt).
Local Abbreviation trade' := (trade b_pct s_pct amt).
Local Abbreviation loop' := (loop b_pct s_pct amt).
Local Abbreviation state_after' := (state_after b_pct s_pct amt).
Local Abbreviation run := (run_strategy_logic (Date := Date) b_pct s_pct amt).

(** *** Shapes of the arrays *)

Lemma length_np_diff (a : list F) : length (np_diff a) = Nat.pred (length a).
Proof.
  induction a as [|x [|y t] IH]; simpl in *; auto.
Qed.

Lemma length_removelast (A : Type) (a : list A) :
  length (removelast a) = Nat.pred (length a).
Proof.
  induction a as [|x [|y t] IH]; simpl in *; auto.
Qed.

Lemma length_elementwise (op : F -> F -> F) (a b : list F) :
  length (elementwise op a b) = Nat.min (length a) (length b).
Proof.
  unfold elementwise. now rewrite length_map, length_combine.
Qed.

Lemma length_changes (prices : list F) :
  length (changes prices) = S (Nat.pred (length prices)).
Proof.
  unfold changes. simpl.
  rewrite length_elementwise, length_np_diff, length_removelast.
  now rewrite Nat.min_id.
Qed.

Lemma length_zip (prices : list F) :
  length (combine prices (changes prices)) = length prices.
Proof.
  rewrite length_combine, length_changes.
  destruct prices; simpl; lia.
Qed.

Lemma nth_error_combine (A B : Type) (l : list A) (l' : list B) i a b :
  nth_error l i = Some a -> nth_error l' i = Some b ->
  nth_error (combine l l') i = Some (a, b).
Proof.
  revert l l'. induction i as [|i IH]; intros [|x l] [|y l']; simpl;
    try discriminate.
  - now intros [= ->] [= ->].
  - apply IH.
Qed.

Lemma firstn_snoc (A : Type) (l : list A) i x :
  nth_error l i = Some x -> firstn (S i) l = firstn i l ++ [x].
Proof.
  revert l. induction i as [|i IH]; intros [|y l]; simpl; try discriminate.
  - now intros [= ->].
  - intros Hx. f_equal. now apply IH.
Qed.

(** *** The loop, day by day *)

Lemma trade_history st p c : history (trade' st p c) = history st.
Proof.
  unfold trade.
  destruct (c <=? - b_pct / of_Z 100); [reflexivity|].
  destruct ((s_pct / of_Z 100 <=? c) && (of_Z 0 <? shares st)); reflexivity.
Qed.

Lemma day_history st pc :
  history (day' st pc) =
  history st ++ [shares (day' st pc) * fst pc + cash (day' st pc)].
Proof.
  unfold day, record_equity. simpl. now rewrite trade_history.
Qed.

Lemma fold_day_history l : forall st,
  exists later,
    history (fold_left day' l st) = history st ++ later /\
    length later = length l.
Proof.
  induction l as [|pc l IH]; intros st; simpl.
  - exists []. now rewrite app_nil_r.
  - destruct (IH (day' st pc)) as (later & -> & Hlen).
    rewrite day_history, <- app_assoc. simpl.
    eexists. split; [reflexivity|]. simpl. now rewrite Hlen.
Qed.

Lemma loop_state_after (prices : list F) :
  loop' prices = state_after' prices (length prices).
Proof.
  unfold loop, state_after.
  rewrite firstn_all2; [reflexivity|]. now rewrite length_zip.
Qed.

Lemma state_after_0 (prices : list F) :
  state_after' prices 0 = init_state.
Proof. reflexivity. Qed.

Lemma state_after_S (prices : list F) i p c :
  nth_error prices i = Some p ->
  nth_error (changes prices) i = Some c ->
  state_after' prices (S i) = day' (state_after' prices i) (p, c).
Proof.
  intros Hp Hc. unfold state_after.
  rewrite (firstn_snoc _ _ (nth_error_combine _ _ _ Hp Hc)).
  now rewrite fold_left_app.
Qed.

Lemma length_history_after (prices : list F) n :
  length (history (state_after' prices n)) = Nat.min n (length prices).
Proof.
  unfold state_after.
  destruct (fold_day_history
              (firstn n (combine prices (changes prices))) init_state)
    as (later & -> & Hlen).
  simpl. now rewrite Hlen, length_firstn, length_zip.
Qed.

Lemma length_history_loop (prices : list F) :
  length (history (loop' prices)) = length prices.
Proof.
  rewrite loop_state_after, length_history_after. apply Nat.min_id.
Qed.

Lemma history_after_prefix (prices : list F) n :
  exists later,
    history (loop' prices) = history (state_after' prices n) ++ later.
Proof.
  unfold loop, state_after.
  set (l := combine prices (changes prices)).
  replace (fold_left day' l init_state)
    with (fold_left day' (skipn n l) (fold_left day' (firstn n l) init_state))
    by now rewrite <- fold_left_app, firstn_skipn.
  destruct (fold_day_history (skipn n l) (fold_left day' (firstn n l) init_state))
    as (later & -> & _).
  now exists later.
Qed.

(** *** The daily changes *)

Lemma nth_error_np_diff (a : list F) i x y :
  nth_error a i = Some x -> nth_error a (S i) = Some y ->
  nth_error (np_diff a) i = Some (y - x).
Proof.
  revert a. induction i as [|i IH]; intros [|u [|v t]] Hx Hy;
    simpl in *; try discriminate.
  - congruence.
  - now apply (IH (v :: t)).
Qed.

Lemma nth_error_removelast (A : Type) (a : list A) i x y :
  nth_error a i = Some x -> nth_error a (S i) = Some y ->
  nth_error (removelast a) i = Some x.
Proof.
  revert a. induction i as [|i IH]; intros [|u [|v t]] Hx Hy;
    simpl in *; try discriminate.
  - congruence.
  - now apply (IH (v :: t)).
Qed.

Lemma nth_error_elementwise (op : F -> F -> F) (a b : list F) i x y :
  nth_error a i = Some x -> nth_error b i = Some y ->
  nth_error (elementwise op a b) i = Some (op x y).
Proof.
  intros Ha Hb. unfold elementwise.
  now rewrite nth_error_map, (nth_error_combine _ _ _ Ha Hb).
Qed.

Lemma nth_error_changes (prices : list F) i p :
  nth_error prices i = Some p ->
  nth_error (changes prices) i = Some (spec_change prices i p).
Proof.
  destruct i as [|j]; [reflexivity|]. intros Hp.
  assert (Hj : nth_error prices j <> None)
    by (apply nth_error_Some; apply Nat.lt_succ_l, nth_error_Some; congruence).
  simpl. destruct (nth_error prices j) as [q|] eqn:Hq; [|congruence].
  apply nth_error_elementwise.
  - now apply nth_error_np_diff.
  - now apply nth_error_removelast with (y := p).
Qed.

(** *** One day of trading *)




(** *** The statistics never fail on a trajectory that is not empty *)

Lemma length_accumulate (op : F -> F -> F) (a : list F) : forall acc,
  length (accumulate op acc a) = length a.
Proof.
  induction a as [|x t IH]; intros acc; simpl; auto.
Qed.

Lemma length_np_maximum_accumulate (a : list F) :
  length (np_maximum_accumulate a) = length a.
Proof.
  destruct a; simpl; [reflexivity|]. now rewrite length_accumulate.
Qed.

Lemma length_drawdowns (h : list F) :
  length (elementwise div (elementwise sub h (np_maximum_accumulate h))
                      (np_maximum_accumulate h)) = length h.
Proof.
  rewrite !length_elementwise, length_np_maximum_accumulate. lia.
Qed.

Lemma last_item_ok (a : list F) :
  a <> [] -> exists x, last_item a = Ok x.
Proof.
  destruct a; [congruence|]. intros _. simpl. eauto.
Qed.

Lemma np_nanmin_ok (a : list F) :
  a <> [] -> exists x, np_nanmin a = Ok x.
Proof.
  destruct a; [congruence|]. intros _. simpl. eauto.
Qed.

Lemma nonempty_length (A : Type) (a : list A) : (0 < length a)%nat -> a <> [].
Proof. destruct a; simpl; [lia|discriminate]. Qed.

Lemma cum_ret_of_ok (h : list F) total :
  h <> [] -> exists x, cum_ret_of h total = Ok x.
Proof.
  intros Hh. unfold cum_ret_of. destruct (of_Z 0 <? total); [|eauto].
  destruct (last_item_ok Hh) as (x & ->). simpl. eauto.
Qed.

Lemma mdd_of_ok (h : list F) :
  h <> [] -> exists x, mdd_of h = Ok x.
Proof.
  intros Hh. unfold mdd_of.
  destruct (np_any (np_maximum_accumulate h)); [|eauto].
  apply np_nanmin_ok, nonempty_length. rewrite length_drawdowns.
  destruct h; simpl; [congruence|lia].
Qed.

(** The shape of a successful run. *)
Lemma run_ok (df : frame Date) :
  df <> [] ->
  exists cr md lp,
    cum_ret_of (history (loop' (closes df)))
               (of_nat (b_cnt (loop' (closes df))) * amt) = Ok cr /\
    mdd_of (history (loop' (closes df))) = Ok md /\
    last_item (closes df) = Ok lp /\
    run df =
    Ok (mkOutcome (history (loop' (closes df))) (index df)
                  (b_cnt (loop' (closes df))) (s_cnt (loop' (closes df)))
                  cr md (win_rate_of (history (loop' (closes df))))
                  (shares (loop' (closes df)) * lp)).
Proof.
  intros Hdf.
  assert (Hp : closes df <> [])
    by (unfold closes; destruct df; simpl; congruence).
  assert (Hh : history (loop' (closes df)) <> []).
  { apply nonempty_length. rewrite length_history_loop.
    destruct (closes df); simpl; [congruence|lia]. }
  destruct (cum_ret_of_ok (of_nat (b_cnt (loop' (closes df))) * amt) Hh)
    as (cr & Hcr).
  destruct (mdd_of_ok Hh) as (md & Hmd).
  destruct (last_item_ok Hp) as (lp & Hlp).
  exists cr, md, lp. repeat split; try assumption.
  unfold run_strategy_logic. rewrite Hcr, Hmd, Hlp. reflexivity.
Qed.

(** C2, as the code has it.  The engine validates nothing.  It fails on the
    empty frame only, with the [IndexError] of [prices[-1]]; on every other
    frame it returns a complete outcome, whatever the prices, the amount and
    the thresholds are. *)
Theorem only_the_empty_frame_fails :
  run [] = Raise IndexError /\
  forall (row : Date * F) (df : frame Date), exists o, run (row :: df) = Ok o.
Proof.
  split.
  { unfold run_strategy_logic, cum_ret_of. simpl.
    destruct (of_Z 0 <? of_nat 0 * amt); reflexivity. }
  intros row df.
  destruct (@run_ok (row :: df)) as (cr & md & lp & _ & _ & _ & ->);
    [discriminate|eauto].
Qed.

(** *** Counting the trades *)



(** Day 0 cannot trade as soon as the buy threshold is below zero: its
    change is zero and no shares are held yet. *)
Lemma trade_day0 (p : F) :
  (of_Z 0 <=? - b_pct / of_Z 100) = false ->
  (of_Z 0 <? of_Z 0) = false ->
  trade' init_state p (of_Z 0) = init_state.
Proof.
  intros Hb H0. unfold trade. rewrite Hb. simpl. rewrite H0.
  now rewrite andb_false_r.
Qed.

Lemma day0 (p : F) :
  (of_Z 0 <=? - b_pct / of_Z 100) = false ->
  (of_Z 0 <? of_Z 0) = false ->
  day' init_state (p, of_Z 0) =
  mkState (of_Z 0) (of_Z 0) 0 0 [of_Z 0 * p + of_Z 0].
Proof.
  intros Hb H0. unfold day. simpl. now rewrite trade_day0.
Qed.

Lemma state_after_1 (p : F) (prices : list F) :
  (of_Z 0 <=? - b_pct / of_Z 100) = false ->
  (of_Z 0 <? of_Z 0) = false ->
  state_after' (p :: prices) 1 =
  mkState (of_Z 0) (of_Z 0) 0 0 [of_Z 0 * p + of_Z 0].
Proof.
  intros Hb H0. unfold state_after. simpl. now apply day0.
Qed.

Lemma loop_cons (p : F) (t : list F) :
  loop' (p :: t) =
  fold_left day'
            (combine t (elementwise div (np_diff (p :: t)) (removelast (p :: t))))
            (day' init_state (p, of_Z 0)).
Proof. reflexivity. Qed.


End EngineFacts.

(** * More of the engine, whatever the arithmetic *)

Section Causality.

Context {F : Type} {numF : Num F}.
Variable Date : Type.
Variables b_pct s_pct amt : F.

Local Open Scope num_scope.

Local Abbreviation day_g := (day b_pct s_pct amt).
Local Abbreviation loop_g := (loop b_pct s_pct amt).
Local Abbreviation state_after_g := (state_after b_pct s_pct amt).
Local Abbreviation run_g := (run_strategy_logic (Date := Date) b_pct s_pct amt).

(** *** No look-ahead *)

(** The pairs [zip(prices, changes)] after the first one. *)
Lemma zip_tail_cons (x y : F) (t : list F) :
  combine (y :: t)
          (elementwise div (np_diff (x :: y :: t)) (removelast (x :: y :: t))) =
  (y, (y - x) / x) ::
  combine t (elementwise div (np_diff (y :: t)) (removelast (y :: t))).
Proof. reflexivity. Qed.

Lemma zip_tail_firstn (t : list F) : forall (x : F) n,
  combine (firstn n t)
          (elementwise div (np_diff (x :: firstn n t))
                       (removelast (x :: firstn n t))) =
  firstn n (combine t (elementwise div (np_diff (x :: t))
                                   (removelast (x :: t)))).
Proof.
  induction t as [|y t IH]; intros x n.
  - rewrite firstn_nil. simpl. now rewrite firstn_nil.
  - destruct n as [|n]; [reflexivity|].
    rewrite firstn_cons, !zip_tail_cons, firstn_cons. f_equal. apply IH.
Qed.

(** The days zipped from a prefix of the closes are the first days zipped
    from all of them: the change of a day reads no later close. *)
Lemma zip_firstn (prices : list F) n :
  combine (firstn n prices) (changes (firstn n prices)) =
  firstn n (combine prices (changes prices)).
Proof.
  destruct prices as [|x t]; [rewrite firstn_nil; simpl; now rewrite firstn_nil|].
  destruct n as [|n]; [reflexivity|].
  rewrite firstn_cons. unfold changes. cbn [combine]. rewrite firstn_cons.
  f_equal. apply zip_tail_firstn.
Qed.

Lemma loop_firstn (prices : list F) n :
  loop_g (firstn n prices) = state_after_g prices n.
Proof.
  unfold loop, state_after. now rewrite zip_firstn.
Qed.

Lemma history_firstn (prices : list F) n :
  history (loop_g (firstn n prices)) = firstn n (history (loop_g prices)).
Proof.
  destruct (Nat.le_gt_cases n (length prices)) as [Hn|Hn].
  - rewrite loop_firstn.
    destruct (history_after_prefix b_pct s_pct amt prices n) as (later & ->).
    assert (Hlen := length_history_after b_pct s_pct amt prices n).
    rewrite Nat.min_l in Hlen by assumption.
    rewrite <- Hlen at 2. rewrite firstn_app, firstn_all, Nat.sub_diag.
    now rewrite firstn_0, app_nil_r.
  - rewrite (firstn_all2 prices) by lia.
    rewrite firstn_all2; [reflexivity|]. rewrite length_history_loop. lia.
Qed.

(** Entry [i] of the trajectory is the equity of the state left by day [i]. *)
Lemma history_entry (prices : list F) i p :
  nth_error prices i = Some p ->
  nth_error (history (loop_g prices)) i =
  Some (shares (state_after_g prices (S i)) * p
        + cash (state_after_g prices (S i))).
Proof.
  intros Hp.
  pose proof (nth_error_changes _ _ Hp) as Hc.
  destruct (history_after_prefix b_pct s_pct amt prices (S i)) as (later & ->).
  assert (Hlen := length_history_after b_pct s_pct amt prices i).
  assert (Hi : (i < length prices)%nat) by (apply nth_error_Some; congruence).
  rewrite Nat.min_l in Hlen by lia.
  rewrite (state_after_S b_pct s_pct amt _ _ Hp Hc), day_history.
  rewrite <- app_assoc, nth_error_app2 by lia.
  rewrite Hlen, Nat.sub_diag. reflexivity.
Qed.

(** The counters only grow. *)
Lemma trade_counters_grow st p c :
  (b_cnt st <= b_cnt (trade b_pct s_pct amt st p c))%nat /\
  (s_cnt st <= s_cnt (trade b_pct s_pct amt st p c))%nat.
Proof.
  unfold trade.
  destruct (c <=? - b_pct / of_Z 100); simpl; [lia|].
  destruct ((s_pct / of_Z 100 <=? c) && (of_Z 0 <? shares st)); simpl; lia.
Qed.

Lemma fold_day_counters_grow l : forall st,
  (b_cnt st <= b_cnt (fold_left day_g l st))%nat /\
  (s_cnt st <= s_cnt (fold_left day_g l st))%nat.
Proof.
  induction l as [|pc l IH]; intros st; simpl; [lia|].
  destruct (IH (day_g st pc)) as (H1 & H2).
  destruct (trade_counters_grow st (fst pc) (snd pc)) as (H3 & H4).
  unfold day, record_equity in *. simpl in *. lia.
Qed.

Lemma counters_after_prefix (prices : list F) n :
  (b_cnt (state_after_g prices n) <= b_cnt (loop_g prices))%nat /\
  (s_cnt (state_after_g prices n) <= s_cnt (loop_g prices))%nat.
Proof.
  unfold loop, state_after.
  set (l := combine prices (changes prices)).
  replace (fold_left day_g l init_state)
    with (fold_left day_g (skipn n l) (fold_left day_g (firstn n l) init_state))
    by now rewrite <- fold_left_app, firstn_skipn.
  apply fold_day_counters_grow.
Qed.

Lemma closes_firstn (df : frame (F := F) Date) n :
  closes (firstn n df : frame Date) = firstn n (closes df).
Proof.
  unfold closes. symmetry. apply firstn_map.
Qed.

Lemma run_fields (df : frame Date) o :
  run_g df = Ok o ->
  out_history o = history (loop_g (closes df)) /\
  out_b_cnt o = b_cnt (loop_g (closes df)) /\
  out_s_cnt o = s_cnt (loop_g (closes df)) /\
  out_index o = index df.
Proof.
  unfold run_strategy_logic.
  destruct (cum_ret_of _ _); simpl; [|discriminate].
  destruct (mdd_of _); simpl; [|discriminate].
  destruct (last_item _); simpl; [|discriminate].
  now intros [= <-].
Qed.

(** X2. The engine looks at no future row.  A run on the first [n] rows
    of a frame returns the first [n] values of the trajectory of the run on
    the whole frame, its dates, and counters that the whole run can only
    have increased. *)
Theorem no_look_ahead (df : frame Date) (n : nat) (o o' : outcome Date) :
  run_g df = Ok o ->
  run_g (firstn n df) = Ok o' ->
  out_history o' = firstn n (out_history o) /\
  out_index o' = firstn n (out_index o) /\
  (out_b_cnt o' <= out_b_cnt o)%nat /\
  (out_s_cnt o' <= out_s_cnt o)%nat.
Proof.
  intros Ho Ho'.
  destruct (run_fields _ Ho) as (H1 & H2 & H3 & H4).
  destruct (run_fields _ Ho') as (H1' & H2' & H3' & H4').
  rewrite H1, H2, H3, H4, H1', H2', H3', H4', closes_firstn.
  rewrite loop_firstn.
  destruct (counters_after_prefix (closes df) n) as (Hb & Hs).
  repeat split; try assumption.
  - rewrite <- loop_firstn. apply history_firstn.
  - unfold index. symmetry. apply firstn_map.
Qed.

End Causality.

(** * The statistics, whatever the arithmetic *)

Section Statistics.

Context {F : Type} {numF : Num F}.
Variable Date : Type.
Variables b_pct s_pct amt : F.

Local Open Scope num_scope.

Local Abbreviation loop_s := (loop b_pct s_pct amt).
Local Abbreviation run_s := (run_strategy_logic (Date := Date) b_pct s_pct amt).

Lemma last_cons (t : list F) : forall z y : F, last (z :: t) y = last t z.
Proof.
  induction t as [|w t IH]; intros z y; [reflexivity|].
  change (last (z :: w :: t) y) with (last (w :: t) y). now rewrite !IH.
Qed.

(** [a[-1]] is the entry of index [len(a) - 1]. *)
Lemma last_item_nth (a : list F) (x : F) :
  last_item a = Ok x -> nth_error a (length a - 1) = Some x.
Proof.
  destruct a as [|y t]; simpl; [discriminate|]. intros [= <-].
  rewrite Nat.sub_0_r. revert y.
  induction t as [|z t IH]; intros y; [reflexivity|].
  rewrite last_cons. exact (IH z).
Qed.

(** The cumulative return of a run, from the entry [N - 1] of its
    trajectory and its number of buys. *)
Lemma cum_ret_of_run (df : frame Date) :
  df <> [] ->
  exists o e,
    run_s df = Ok o /\
    nth_error (out_history o) (length df - 1) = Some e /\
    cum_ret o =
    if of_Z 0 <? of_nat (out_b_cnt o) * amt
    then e / (of_nat (out_b_cnt o) * amt) - of_Z 1
    else of_Z 0.
Proof.
  intros Hdf.
  destruct (run_ok b_pct s_pct amt Hdf) as (cr & md & lp & Hcr & _ & _ & Hrun).
  assert (Hlen : length (history (loop_s (closes df))) = length df)
    by (rewrite length_history_loop; unfold closes; apply length_map).
  destruct (last_item (history (loop_s (closes df)))) as [e|err] eqn:Hlast.
  - exists (mkOutcome (history (loop_s (closes df))) (index df)
                      (b_cnt (loop_s (closes df))) (s_cnt (loop_s (closes df)))
                      cr md (win_rate_of (history (loop_s (closes df))))
                      (shares (loop_s (closes df)) * lp)), e.
    cbn [out_history out_b_cnt cum_ret].
    split; [exact Hrun|]. split.
    + rewrite <- Hlen. now apply last_item_nth.
    + unfold cum_ret_of in Hcr. rewrite Hlast in Hcr. cbn [bind] in Hcr.
      destruct (of_Z 0 <? of_nat (b_cnt (loop_s (closes df))) * amt);
        now injection Hcr.
  - exfalso. destruct (history (loop_s (closes df))); [|discriminate Hlast].
    destruct df; [congruence|discriminate Hlen].
Qed.

(** [rises] counts at most one rise per step. *)
Lemma rises_bound (h : list F) : (rises h <= length h - 1)%nat.
Proof.
  induction h as [|x [|y t] IH]; [simpl; lia|simpl; lia|].
  change (rises (x :: y :: t))
    with (Nat.add (if x <? y then 1%nat else 0%nat) (rises (y :: t))).
  cbn [length] in *. destruct (x <? y); lia.
Qed.

Lemma map_fst_combine (A B : Type) (l : list A) : forall l' : list B,
  (length l <= length l')%nat -> map fst (combine l l') = l.
Proof.
  induction l as [|x l IH]; intros [|y l'] Hlen; simpl in *;
    try reflexivity; try lia.
  f_equal. apply IH. lia.
Qed.

(** *** A run without a buy *)

(** With nothing held, a day that does not buy does nothing. *)
Lemma trade_no_buy st p c :
  (of_Z 0 <? of_Z 0) = false ->
  shares st = of_Z 0 ->
  b_cnt (trade b_pct s_pct amt st p c) = b_cnt st ->
  trade b_pct s_pct amt st p c = st.
Proof.
  intros H0 Hsh. unfold trade.
  destruct (c <=? - b_pct / of_Z 100); cbn [b_cnt]; [lia|].
  rewrite Hsh, H0, andb_false_r. reflexivity.
Qed.

Lemma fold_day_no_buy l : forall st,
  (of_Z 0 <? of_Z 0) = false ->
  shares st = of_Z 0 -> cash st = of_Z 0 ->
  b_cnt (fold_left (day b_pct s_pct amt) l st) = b_cnt st ->
  fold_left (day b_pct s_pct amt) l st =
  mkState (of_Z 0) (of_Z 0) (b_cnt st) (s_cnt st)
          (history st ++ map (fun pc => of_Z 0 * fst pc + of_Z 0) l).
Proof.
  induction l as [|pc l IH]; intros st H0 Hsh Hc Hb; cbn [fold_left map].
  - rewrite app_nil_r. destruct st; cbn in *. now subst.
  - cbn [fold_left] in Hb.
    destruct (fold_day_counters_grow b_pct s_pct amt l
                (day b_pct s_pct amt st pc)) as (G1 & _).
    destruct (trade_counters_grow b_pct s_pct amt st (fst pc) (snd pc))
      as (G2 & _).
    assert (Hd : day b_pct s_pct amt st pc =
                 mkState (cash st) (shares st) (b_cnt st) (s_cnt st)
                         (history st ++ [of_Z 0 * fst pc + of_Z 0])).
    { assert (E : b_cnt (day b_pct s_pct amt st pc) =
                  b_cnt (trade b_pct s_pct amt st (fst pc) (snd pc)))
        by reflexivity.
      unfold day. rewrite trade_no_buy; [|assumption|assumption|lia].
      unfold record_equity. now rewrite Hsh, Hc. }
    rewrite Hd in Hb |- *. rewrite IH; try assumption.
    cbn [b_cnt s_cnt history]. now rewrite <- app_assoc.
Qed.

Lemma loop_no_buy (prices : list F) :
  (of_Z 0 <? of_Z 0) = false ->
  b_cnt (loop_s prices) = 0%nat ->
  loop_s prices =
  mkState (of_Z 0) (of_Z 0) 0 0 (map (fun p => of_Z 0 * p + of_Z 0) prices).
Proof.
  intros H0 Hb. unfold loop in *.
  rewrite fold_day_no_buy; try assumption; try reflexivity.
  cbn [init_state b_cnt s_cnt history app]. f_equal.
  rewrite <- (map_map fst (fun p => of_Z 0 * p + of_Z 0)).
  rewrite map_fst_combine; [reflexivity|]. rewrite length_changes.
  destruct prices; simpl; lia.
Qed.

End Statistics.

(** * Binary64 rounding, from the specification of the operations *)

Section Rounding64.

Import SpecFloat FloatOps FloatAxioms Binary64.

Local Open Scope Z_scope.

Local Abbreviation emin := (-1074)%Z.

(** *** Digits *)

Lemma digits2_pos_bounds (p : positive) :
  2 ^ (Zpos (digits2_pos p) - 1) <= Zpos p < 2 ^ Zpos (digits2_pos p).
Proof.
  induction p as [p IH|p IH|]; cbn [digits2_pos].
  - rewrite Pos2Z.inj_succ.
    replace (Z.succ (Zpos (digits2_pos p)) - 1)
      with (Z.succ (Zpos (digits2_pos p) - 1)) by lia.
    rewrite !Z.pow_succ_r by lia. lia.
  - rewrite Pos2Z.inj_succ.
    replace (Z.succ (Zpos (digits2_pos p)) - 1)
      with (Z.succ (Zpos (digits2_pos p) - 1)) by lia.
    rewrite !Z.pow_succ_r by lia. lia.
  - cbn. lia.
Qed.

Lemma iter_xO (m d : positive) :
  Zpos (Pos.iter xO m d) = Zpos m * 2 ^ Zpos d.
Proof.
  revert m. induction d as [|d IH] using Pos.peano_ind; intros m.
  - cbn. lia.
  - rewrite Pos.iter_succ, Pos2Z.inj_succ, Z.pow_succ_r by lia.
    rewrite Pos2Z.inj_xO, IH. lia.
Qed.

(** *** Shifting to the right *)

Lemma shr_1_m (mrs : shr_record) :
  0 <= shr_m mrs -> shr_m (shr_1 mrs) = shr_m mrs / 2.
Proof.
  destruct mrs as [m r s]. cbn [shr_m]. intros Hm.
  destruct m as [|[p|p|]|p]; cbn [shr_1 shr_m]; try lia;
    first [ reflexivity
          | apply Z.div_unique with (r := 1); lia
          | apply Z.div_unique with (r := 0); lia ].
Qed.

Lemma pow2_xO (n : positive) : 2 ^ Zpos n~0 = 2 ^ Zpos n * 2 ^ Zpos n.
Proof. rewrite <- Z.pow_add_r by lia. f_equal. lia. Qed.

Lemma pow2_xI (n : positive) : 2 ^ Zpos n~1 = 2 * (2 ^ Zpos n * 2 ^ Zpos n).
Proof.
  rewrite <- Z.pow_add_r, <- Z.pow_succ_r by lia. f_equal. lia.
Qed.

Lemma iter_shr_1_m (n : positive) : forall mrs : shr_record,
  0 <= shr_m mrs ->
  shr_m (iter_pos shr_1 n mrs) = shr_m mrs / 2 ^ Zpos n.
Proof.
  induction n as [n IH|n IH|]; intros mrs Hm; cbn [iter_pos].
  - assert (H1 : 0 <= shr_m (shr_1 mrs))
      by (rewrite shr_1_m by assumption; apply Z.div_pos; lia).
    assert (H2 : 0 <= shr_m (iter_pos shr_1 n (shr_1 mrs)))
      by (rewrite IH by assumption; apply Z.div_pos; [|apply Z.pow_pos_nonneg]; lia).
    rewrite IH, IH, shr_1_m by assumption.
    assert (Hp : 0 < 2 ^ Zpos n) by (apply Z.pow_pos_nonneg; lia).
    rewrite !Z.div_div by lia. now rewrite pow2_xI.
  - assert (H2 : 0 <= shr_m (iter_pos shr_1 n mrs))
      by (rewrite IH by assumption; apply Z.div_pos; [|apply Z.pow_pos_nonneg]; lia).
    rewrite IH, IH by assumption.
    assert (Hp : 0 < 2 ^ Zpos n) by (apply Z.pow_pos_nonneg; lia).
    rewrite !Z.div_div by lia. now rewrite pow2_xO.
  - rewrite shr_1_m by assumption. reflexivity.
Qed.

Lemma shr_record_of_loc_m m l : shr_m (shr_record_of_loc m l) = m.
Proof. destruct l as [|[| |]]; reflexivity. Qed.

Lemma fexp64 (k : Z) : fexp prec emax k = Z.max (k - 53) emin.
Proof. reflexivity. Qed.

(** Shifting a mantissa to its place keeps it above zero when the
    exponent is not below the least one. *)
Lemma shr_fexp_pos (p : positive) (e : Z) (l : location) :
  emin <= e ->
  exists q e',
    shr_m (fst (shr_fexp prec emax (Zpos p) e l)) = Zpos q /\
    snd (shr_fexp prec emax (Zpos p) e l) = e' /\ emin <= e'.
Proof.
  intros He. unfold shr_fexp, shr. cbn [Zdigits2]. rewrite fexp64.
  pose proof (digits2_pos_bounds p) as Hd.
  set (d := Zpos (digits2_pos p)) in *.
  destruct (Z.max (d + e - 53) emin - e) as [|n|n] eqn:En; cbn [fst snd].
  - rewrite shr_record_of_loc_m. eauto.
  - rewrite iter_shr_1_m by (rewrite shr_record_of_loc_m; lia).
    rewrite shr_record_of_loc_m.
    assert (Hn : Zpos n <= d - 1) by lia.
    assert (H1 : 1 <= Zpos p / 2 ^ Zpos n).
    { apply Z.div_le_lower_bound; [apply Z.pow_pos_nonneg; lia|].
      rewrite Z.mul_1_r. apply Z.le_trans with (2 ^ (d - 1)); [|lia].
      apply Z.pow_le_mono_r; lia. }
    destruct (Zpos p / 2 ^ Zpos n) as [|q|q] eqn:Eq; try lia.
    exists q, (e + Zpos n). repeat split. lia.
  - rewrite shr_record_of_loc_m. eauto.
Qed.

Lemma round_nearest_even_pos (q : positive) (l : location) :
  exists q', round_nearest_even (Zpos q) l = Zpos q'.
Proof.
  destruct l as [|[| |]]; cbn [round_nearest_even]; eauto.
  - destruct (Z.even (Zpos q)); eauto. exists (q + 1)%positive. lia.
  - exists (q + 1)%positive. lia.
Qed.

(** A mantissa above zero does not round to zero. *)
Lemma binary_round_aux_pos (s : bool) (p : positive) (e : Z) (l : location) :
  emin <= e ->
  (exists m e', binary_round_aux prec emax s (Zpos p) e l = S754_finite s m e') \/
  binary_round_aux prec emax s (Zpos p) e l = S754_infinity s.
Proof.
  intros He. unfold binary_round_aux.
  destruct (@shr_fexp_pos p e l He) as (q & e' & Hq & He' & Hmin).
  destruct (shr_fexp prec emax (Zpos p) e l) as [mrs' e1]. cbn [fst snd] in *.
  subst e1. rewrite Hq.
  destruct (round_nearest_even_pos q (loc_of_shr_record mrs')) as (q' & ->).
  destruct (@shr_fexp_pos q' e' loc_Exact Hmin) as (q2 & e2 & Hq2 & He2 & _).
  destruct (shr_fexp prec emax (Zpos q') e' loc_Exact) as [mrs2 e3].
  cbn [fst snd] in *. rewrite Hq2.
  destruct (e3 <=? emax - prec); eauto.
Qed.

Lemma shl_align_exponent (m : positive) (e e' : Z) :
  emin <= e -> emin <= e' -> emin <= snd (shl_align m e e').
Proof.
  intros. unfold shl_align. destruct (e' - e); cbn [snd]; lia.
Qed.

Lemma binary_round_pos (s : bool) (p : positive) (e : Z) :
  emin <= e ->
  (exists m e', binary_round prec emax s p e = S754_finite s m e') \/
  binary_round prec emax s p e = S754_infinity s.
Proof.
  intros He. unfold binary_round.
  pose proof (@shl_align_exponent p e (fexp prec emax (Zpos (digits2_pos p) + e)) He) as H.
  destruct (shl_align p e _) as [mz ez]. cbn [snd] in H.
  apply binary_round_aux_pos. apply H. rewrite fexp64. lia.
Qed.


(** *** Comparison of two finite numbers *)

(** What validity says of a mantissa and its exponent. *)
Lemma bounded_canonical (m : positive) (e : Z) :
  bounded prec emax m e = true ->
  emin <= e /\ Zpos (digits2_pos m) <= 53 /\
  (emin < e -> Zpos (digits2_pos m) = 53).
Proof.
  unfold bounded, canonical_mantissa. intros H.
  apply andb_prop in H as (H & _). apply Z.eqb_eq in H.
  rewrite fexp64 in H. lia.
Qed.

Lemma shl_align_value (m : positive) (e e' : Z) :
  e' <= e -> Zpos (fst (shl_align m e e')) = Zpos m * 2 ^ (e - e').
Proof.
  intros He. unfold shl_align.
  destruct (e' - e) as [|d|d] eqn:Ed; cbn [fst].
  - replace (e - e') with 0 by lia. cbn. lia.
  - lia.
  - rewrite iter_xO. f_equal. f_equal. lia.
Qed.

(** The order of two valid mantissas brought to the same exponent is read
    from the exponents first. *)
Lemma aligned_order (mx my : positive) (ex ey : Z) :
  bounded prec emax mx ex = true ->
  bounded prec emax my ey = true ->
  (Zpos mx * 2 ^ (ex - Z.min ex ey) ?= Zpos my * 2 ^ (ey - Z.min ex ey)) =
  match ex ?= ey with
  | Lt => Lt
  | Gt => Gt
  | Eq => Pos.compare_cont Eq mx my
  end.
Proof.
  intros Hx Hy.
  destruct (@bounded_canonical mx ex Hx) as (Hex & Hdx & Hnx).
  destruct (@bounded_canonical my ey Hy) as (Hey & Hdy & Hny).
  pose proof (digits2_pos_bounds mx) as Bx.
  pose proof (digits2_pos_bounds my) as By.
  destruct (Z.compare_spec ex ey) as [E|E|E].
  - subst ey. rewrite Z.min_id, Z.sub_diag. cbn [Z.pow].
    rewrite !Z.mul_1_r. reflexivity.
  - rewrite Z.min_l, Z.sub_diag by lia. cbn [Z.pow]. rewrite Z.mul_1_r.
    apply Z.compare_lt_iff.
    rewrite Hny in By by lia.
    assert (Zpos mx < 2 ^ 53).
    { apply Z.lt_le_trans with (2 ^ Zpos (digits2_pos mx)); [lia|].
      apply Z.pow_le_mono_r; lia. }
    assert (2 ^ 1 <= 2 ^ (ey - ex)) by (apply Z.pow_le_mono_r; lia).
    change (2 ^ (53 - 1)) with 4503599627370496 in By.
    change (2 ^ 53) with 9007199254740992 in *.
    change (2 ^ 1) with 2 in *. nia.
  - rewrite Z.min_r, Z.sub_diag by lia. cbn [Z.pow]. rewrite Z.mul_1_r.
    apply Z.compare_gt_iff.
    rewrite Hnx in Bx by lia.
    assert (Zpos my < 2 ^ 53).
    { apply Z.lt_le_trans with (2 ^ Zpos (digits2_pos my)); [lia|].
      apply Z.pow_le_mono_r; lia. }
    assert (2 ^ 1 <= 2 ^ (ex - ey)) by (apply Z.pow_le_mono_r; lia).
    change (2 ^ (53 - 1)) with 4503599627370496 in Bx.
    change (2 ^ 53) with 9007199254740992 in *.
    change (2 ^ 1) with 2 in *. nia.
Qed.

Lemma compare_aligned (sx sy : bool) (mx my : positive) (ex ey : Z) :
  bounded prec emax mx ex = true ->
  bounded prec emax my ey = true ->
  SFcompare (S754_finite sx mx ex) (S754_finite sy my ey) =
  Some (cond_Zopp sx (Zpos (fst (shl_align mx ex (Z.min ex ey)))) ?=
        cond_Zopp sy (Zpos (fst (shl_align my ey (Z.min ex ey))))).
Proof.
  intros Hx Hy.
  rewrite !shl_align_value by lia.
  pose proof (@aligned_order mx my ex ey Hx Hy) as H.
  assert (Px : 0 < Zpos mx * 2 ^ (ex - Z.min ex ey))
    by (apply Z.mul_pos_pos; [lia|apply Z.pow_pos_nonneg; lia]).
  assert (Py : 0 < Zpos my * 2 ^ (ey - Z.min ex ey))
    by (apply Z.mul_pos_pos; [lia|apply Z.pow_pos_nonneg; lia]).
  revert H Px Py.
  generalize (Zpos mx * 2 ^ (ex - Z.min ex ey)).
  generalize (Zpos my * 2 ^ (ey - Z.min ex ey)).
  intros Y X H Px Py.
  cbn [SFcompare]. f_equal.
  destruct sx, sy; cbn [cond_Zopp].
  - rewrite Z.compare_opp, (Z.compare_antisym X Y), H.
    destruct (ex ?= ey); reflexivity.
  - symmetry. apply Z.compare_lt_iff. lia.
  - symmetry. apply Z.compare_gt_iff. lia.
  - now rewrite H.
Qed.

(** *** The sign of a difference *)

Lemma not_above_zero_negative (s : bool) (p : positive) (e : Z) :
  emin <= e ->
  SFltb (S754_zero false) (binary_round prec emax s p e) = negb s.
Proof.
  intros He.
  destruct (@binary_round_pos s p e He) as [(m & e' & ->)| ->];
    destruct s; reflexivity.
Qed.

Lemma SFsub_sign (x y : spec_float) :
  valid_binary x = true -> valid_binary y = true ->
  SFltb (S754_zero false) (SFsub prec emax y x) = SFltb x y.
Proof.
  intros Hx Hy.
  destruct x as [sx|sx| |sx mx ex], y as [sy|sy| |sy my ey];
    try reflexivity;
    try (destruct sx; try destruct sy; reflexivity);
    try (destruct sy; reflexivity).
  cbn [valid_binary] in Hx, Hy.
  unfold SFltb. rewrite (@compare_aligned sx sy mx my ex ey Hx Hy).
  cbn [SFsub]. rewrite (Z.min_comm ey ex).
  destruct (@bounded_canonical mx ex Hx) as (Hex & _).
  destruct (@bounded_canonical my ey Hy) as (Hey & _).
  assert (Hz : emin <= Z.min ex ey) by lia.
  generalize (cond_Zopp sx (Zpos (fst (shl_align mx ex (Z.min ex ey)))))
             (cond_Zopp sy (Zpos (fst (shl_align my ey (Z.min ex ey))))).
  intros X Y.
  destruct (Y - X) as [|d|d] eqn:Ed; cbn [binary_normalize].
  - replace (X ?= Y) with Eq by (symmetry; apply Z.compare_eq_iff; lia).
    reflexivity.
  - fold (SFltb (S754_zero false) (binary_round prec emax false d (Z.min ex ey))).
    rewrite not_above_zero_negative by assumption.
    replace (X ?= Y) with Lt by (symmetry; apply Z.compare_lt_iff; lia).
    reflexivity.
  - fold (SFltb (S754_zero false) (binary_round prec emax true d (Z.min ex ey))).
    rewrite not_above_zero_negative by assumption.
    replace (X ?= Y) with Gt by (symmetry; apply Z.compare_gt_iff; lia).
    reflexivity.
Qed.

(** A difference is above zero exactly when its first operand is above
    its second: there is no underflow in a subtraction. *)
Lemma difference_above_zero (x y : PrimFloat.float) :
  PrimFloat.ltb PrimFloat.zero (PrimFloat.sub y x) = PrimFloat.ltb x y.
Proof.
  rewrite !ltb_spec, sub_spec.
  change (Prim2SF PrimFloat.zero) with (S754_zero false).
  apply SFsub_sign; apply Prim2SF_valid.
Qed.


(** *** Rounding a mantissa of 53 digits or more *)

Lemma digits_unique (m : positive) (k : Z) :
  2 ^ (k - 1) <= Zpos m < 2 ^ k -> Zpos (digits2_pos m) = k.
Proof.
  intros Hk. pose proof (digits2_pos_bounds m) as Hd.
  set (d := Zpos (digits2_pos m)) in *.
  assert (0 < d) by (unfold d; lia).
  destruct (Z.lt_trichotomy d k) as [H1|[H1|H1]]; [|assumption|].
  - assert (2 ^ d <= 2 ^ (k - 1)) by (apply Z.pow_le_mono_r; lia). lia.
  - destruct (Z.le_gt_cases 0 k) as [H0|H0].
    + assert (2 ^ k <= 2 ^ (d - 1)) by (apply Z.pow_le_mono_r; lia). lia.
    + rewrite (Z.pow_neg_r 2 k) in Hk by lia. lia.
Qed.

Lemma loc_of_shr_record_of_loc (m : Z) (l : location) :
  loc_of_shr_record (shr_record_of_loc m l) = l.
Proof. destruct l as [|[| |]]; reflexivity. Qed.

(** The first shift leaves 53 digits. *)
Lemma shr_fexp_normal (q : positive) (e : Z) (l : location) :
  53 <= Zpos (digits2_pos q) -> emin <= e ->
  exists m,
    shr_m (fst (shr_fexp prec emax (Zpos q) e l)) = Zpos m /\
    snd (shr_fexp prec emax (Zpos q) e l) = e + Zpos (digits2_pos q) - 53 /\
    Zpos m = Zpos q / 2 ^ (Zpos (digits2_pos q) - 53) /\
    2 ^ 52 <= Zpos m < 2 ^ 53 /\
    (Zpos (digits2_pos q) = 53 ->
     fst (shr_fexp prec emax (Zpos q) e l) = shr_record_of_loc (Zpos q) l).
Proof.
  intros Hd He. unfold shr_fexp, shr. cbn [Zdigits2]. rewrite fexp64.
  pose proof (digits2_pos_bounds q) as Bq.
  set (d := Zpos (digits2_pos q)) in *.
  replace (Z.max (d + e - 53) emin - e) with (d - 53) by lia.
  destruct (d - 53) as [|n|n] eqn:En; try lia; cbn [fst snd].
  - exists q. rewrite shr_record_of_loc_m. replace d with 53 in * by lia.
    cbn [Z.pow]. rewrite Z.div_1_r. repeat split; lia.
  - rewrite iter_shr_1_m by (rewrite shr_record_of_loc_m; lia).
    rewrite shr_record_of_loc_m.
    assert (Hp : 0 < 2 ^ Zpos n) by (apply Z.pow_pos_nonneg; lia).
    assert (E1 : 2 ^ (d - 1) = 2 ^ Zpos n * 2 ^ 52)
      by (rewrite <- Z.pow_add_r by lia; f_equal; lia).
    assert (E2 : 2 ^ d = 2 ^ Zpos n * 2 ^ 53)
      by (rewrite <- Z.pow_add_r by lia; f_equal; lia).
    assert (L : 2 ^ 52 <= Zpos q / 2 ^ Zpos n)
      by (apply Z.div_le_lower_bound; lia).
    assert (U : Zpos q / 2 ^ Zpos n < 2 ^ 53)
      by (apply Z.div_lt_upper_bound; lia).
    destruct (Zpos q / 2 ^ Zpos n) as [|m|m] eqn:Em;
      [cbn in L; lia| |cbn in L; lia].
    exists m. repeat split; try lia.
Qed.

Lemma round_nearest_even_cases (m : Z) (l : location) :
  round_nearest_even m l = m \/ round_nearest_even m l = m + 1.
Proof.
  destruct l as [|[| |]]; cbn [round_nearest_even]; auto.
  destruct (Z.even m); auto.
Qed.

(** A mantissa of 53 digits or more rounds to one of 53 digits; the
    exponent is the one of its 53 leading digits, or the next one when
    the rounding carries, and then the mantissa is [2^52]. *)
Lemma binary_round_aux_normal (s : bool) (q : positive) (e : Z) (l : location) :
  53 <= Zpos (digits2_pos q) -> emin <= e ->
  exists m e',
    binary_round_aux prec emax s (Zpos q) e l =
    (if e' <=? emax - prec then S754_finite s m e' else S754_infinity s) /\
    2 ^ 52 <= Zpos m < 2 ^ 53 /\
    (e' = e + Zpos (digits2_pos q) - 53 \/
     e' = e + Zpos (digits2_pos q) - 52 /\ Zpos m = 2 ^ 52).
Proof.
  intros Hd He. unfold binary_round_aux.
  destruct (@shr_fexp_normal q e l Hd He) as (m1 & Hm1 & He1 & _ & B1 & _).
  destruct (shr_fexp prec emax (Zpos q) e l) as [mrs' e1].
  cbn [fst snd] in Hm1, He1. rewrite Hm1.
  assert (He1' : emin <= e1) by lia.
  destruct (round_nearest_even_cases (Zpos m1) (loc_of_shr_record mrs'))
    as [-> | ->].
  - assert (D1 : Zpos (digits2_pos m1) = 53) by (apply digits_unique; exact B1).
    destruct (@shr_fexp_normal m1 e1 loc_Exact) as (m2 & Hm2 & He2 & Vm2 & _);
      [lia|lia|].
    destruct (shr_fexp prec emax (Zpos m1) e1 loc_Exact) as [mrs2 e2].
    cbn [fst snd] in Hm2, He2. rewrite Hm2.
    rewrite D1 in Vm2, He2. cbn [Z.sub Z.pow Z.add Z.opp Z.pos_sub] in Vm2.
    rewrite Z.div_1_r in Vm2.
    exists m2, e2. split; [reflexivity|]. split; [lia|]. left. lia.
  - change (Zpos m1 + 1) with (Zpos (m1 + 1)).
    destruct (Z.eq_dec (Zpos m1 + 1) (2 ^ 53)) as [Ec|Ec].
    + assert (D1 : Zpos (digits2_pos (m1 + 1)) = 54).
      { apply digits_unique. rewrite Pos2Z.inj_add, Ec.
        change (2 ^ (54 - 1)) with (2 ^ 53). cbn. lia. }
      destruct (@shr_fexp_normal (m1 + 1) e1 loc_Exact)
        as (m2 & Hm2 & He2 & Vm2 & B2 & _); [lia|lia|].
      destruct (shr_fexp prec emax (Zpos (m1 + 1)) e1 loc_Exact) as [mrs2 e2].
      cbn [fst snd] in Hm2, He2. rewrite Hm2.
      rewrite D1 in Vm2, He2. rewrite Pos2Z.inj_add, Ec in Vm2.
      exists m2, e2. split; [reflexivity|]. split; [exact B2|].
      right. split; [lia|]. rewrite Vm2. reflexivity.
    + assert (D1 : Zpos (digits2_pos (m1 + 1)) = 53)
        by (apply digits_unique; rewrite Pos2Z.inj_add;
            change (2 ^ (53 - 1)) with (2 ^ 52); lia).
      destruct (@shr_fexp_normal (m1 + 1) e1 loc_Exact)
        as (m2 & Hm2 & He2 & Vm2 & B2 & _); [lia|lia|].
      destruct (shr_fexp prec emax (Zpos (m1 + 1)) e1 loc_Exact) as [mrs2 e2].
      cbn [fst snd] in Hm2, He2. rewrite Hm2.
      exists m2, e2. split; [reflexivity|]. split; [exact B2|]. left. lia.
Qed.

(** A mantissa of exactly 53 digits with nothing to round is kept. *)
Lemma binary_round_aux_exact (s : bool) (q : positive) (e : Z) :
  Zpos (digits2_pos q) = 53 -> emin <= e -> e <= emax - prec ->
  binary_round_aux prec emax s (Zpos q) e loc_Exact = S754_finite s q e.
Proof.
  intros Hd He Hmax. unfold binary_round_aux.
  destruct (@shr_fexp_normal q e loc_Exact) as (m1 & Hm1 & He1 & _ & _ & Hr);
    [lia|lia|].
  specialize (Hr Hd).
  destruct (shr_fexp prec emax (Zpos q) e loc_Exact) as [mrs' e1].
  cbn [fst snd] in Hm1, He1, Hr. subst mrs'.
  cbn [shr_record_of_loc loc_of_shr_record shr_m round_nearest_even].
  destruct (@shr_fexp_normal q e1 loc_Exact) as (m2 & Hm2 & He2 & _ & _ & Hr2);
    [lia|lia|].
  specialize (Hr2 Hd).
  destruct (shr_fexp prec emax (Zpos q) e1 loc_Exact) as [mrs2 e2].
  cbn [fst snd] in Hm2, He2, Hr2. subst mrs2. cbn [shr_record_of_loc shr_m].
  replace e2 with e by lia.
  apply Z.leb_le in Hmax. now rewrite Hmax.
Qed.


(** *** The float of a count *)

Lemma shl_align_exponent_eq (m : positive) (e e' : Z) :
  e' <= e -> snd (shl_align m e e') = e'.
Proof.
  intros He. unfold shl_align. destruct (e' - e) eqn:E; cbn [snd]; lia.
Qed.

(** A whole number below [2^53] is a binary64 number: its digits, moved
    up to fill the 53 of the mantissa. *)
Lemma binary_round_count (p : positive) :
  Zpos p < 2 ^ 53 ->
  exists m,
    binary_round prec emax false p 0 =
    S754_finite false m (Zpos (digits2_pos p) - 53) /\
    Zpos m = Zpos p * 2 ^ (53 - Zpos (digits2_pos p)) /\
    2 ^ 52 <= Zpos m < 2 ^ 53.
Proof.
  intros Hp. pose proof (digits2_pos_bounds p) as Bp.
  set (d := Zpos (digits2_pos p)) in *.
  assert (Hd0 : 0 < d) by (unfold d; lia).
  assert (Hd : d <= 53).
  { destruct (Z.le_gt_cases d 53) as [H|H]; [assumption|].
    assert (2 ^ 53 <= 2 ^ (d - 1)) by (apply Z.pow_le_mono_r; lia). lia. }
  unfold binary_round. fold d. rewrite fexp64.
  replace (Z.max (d + 0 - 53) emin) with (d - 53) by lia.
  pose proof (@shl_align_value p 0 (d - 53)) as Hv.
  pose proof (@shl_align_exponent_eq p 0 (d - 53)) as Hs.
  destruct (shl_align p 0 (d - 53)) as [mz ez]. cbn [fst snd] in Hv, Hs.
  rewrite Hs by lia. specialize (Hv ltac:(lia)).
  replace (0 - (d - 53)) with (53 - d) in Hv by lia.
  assert (Hk : 0 < 2 ^ (53 - d)) by (apply Z.pow_pos_nonneg; lia).
  assert (E1 : 2 ^ (d - 1) * 2 ^ (53 - d) = 2 ^ 52)
    by (rewrite <- Z.pow_add_r by lia; f_equal; lia).
  assert (E2 : 2 ^ d * 2 ^ (53 - d) = 2 ^ 53)
    by (rewrite <- Z.pow_add_r by lia; f_equal; lia).
  assert (Bm : 2 ^ 52 <= Zpos mz < 2 ^ 53) by (rewrite Hv; nia).
  exists mz. split; [|split; assumption].
  apply binary_round_aux_exact.
  - apply digits_unique. exact Bm.
  - lia.
  - change (emax - prec) with 971. lia.
Qed.

Lemma Prim2SF_count (p : positive) :
  Zpos p < 2 ^ 53 ->
  exists m,
    Prim2SF (float_of_Z (Zpos p)) =
    S754_finite false m (Zpos (digits2_pos p) - 53) /\
    Zpos m = Zpos p * 2 ^ (53 - Zpos (digits2_pos p)) /\
    2 ^ 52 <= Zpos m < 2 ^ 53.
Proof.
  intros Hp. cbn [float_of_Z]. rewrite of_uint63_spec.
  rewrite Uint63.of_Z_spec, Z.mod_small
    by (split; [lia|]; apply Z.lt_trans with (2 ^ 53); [assumption|reflexivity]).
  cbn [binary_normalize]. now apply binary_round_count.
Qed.

(** *** A quotient of two numbers in order *)

Lemma new_location_exact (m : Z) : new_location m 0 = loc_Exact.
Proof.
  unfold new_location, new_location_even, new_location_odd.
  destruct (Z.even m); reflexivity.
Qed.

(** The quotient of a binary64 number by one that is not below it, both
    with full mantissas and close exponents, is at most one. *)
Lemma SFdiv_at_most_one (mx my : positive) (ex ey : Z) :
  2 ^ 52 <= Zpos mx < 2 ^ 53 -> 2 ^ 52 <= Zpos my < 2 ^ 53 ->
  -52 <= ex <= 0 -> -52 <= ey <= 0 ->
  ex < ey \/ ex = ey /\ Zpos mx <= Zpos my ->
  exists m e,
    SFdiv prec emax (S754_finite false mx ex) (S754_finite false my ey) =
    S754_finite false m e /\
    (e < -52 \/ e = -52 /\ m = 4503599627370496%positive).
Proof.
  intros Bx By Hex Hey Hle.
  assert (Dx : Zpos (digits2_pos mx) = 53) by (apply digits_unique; exact Bx).
  assert (Dy : Zpos (digits2_pos my) = 53) by (apply digits_unique; exact By).
  cbn [SFdiv xorb]. unfold SFdiv_core_binary. cbn [Zdigits2].
  rewrite Dx, Dy, fexp64.
  replace (Z.min (Z.max (53 + ex - (53 + ey) - 53) emin) (ex - ey))
    with (ex - ey - 53) by lia.
  replace (ex - ey - (ex - ey - 53)) with 53 by lia.
  rewrite Z.shiftl_mul_pow2 by lia.
  pose proof (Z_div_mod (Zpos mx * 2 ^ 53) (Zpos my) ltac:(lia)) as Hdiv.
  destruct (Z.div_eucl (Zpos mx * 2 ^ 53) (Zpos my)) as [q r].
  destruct Hdiv as (Hq & Hr).
  change (2 ^ 52) with 4503599627370496 in *.
  change (2 ^ 53) with 9007199254740992 in *.
  assert (Lq : 4503599627370496 <= q) by nia.
  assert (Uq : q < 18014398509481984) by nia.
  destruct q as [|q|q]; try lia.
  assert (Dq : 53 <= Zpos (digits2_pos q) <= 54).
  { pose proof (digits2_pos_bounds q) as Bq. split.
    - destruct (Z.le_gt_cases 53 (Zpos (digits2_pos q))) as [H|H];
        [assumption|].
      assert (2 ^ Zpos (digits2_pos q) <= 2 ^ 52)
        by (apply Z.pow_le_mono_r; lia).
      change (2 ^ 52) with 4503599627370496 in *. lia.
    - destruct (Z.le_gt_cases (Zpos (digits2_pos q)) 54) as [H|H];
        [assumption|].
      assert (2 ^ 54 <= 2 ^ (Zpos (digits2_pos q) - 1))
        by (apply Z.pow_le_mono_r; lia).
      change (2 ^ 54) with 18014398509481984 in *. lia. }
  assert (Hcases : ex = ey /\ Zpos mx = Zpos my \/ ex < ey \/
                   ex = ey /\ Zpos mx < Zpos my) by lia.
  destruct Hcases as [(Ee & Em)|[Hlt|(Ee & Hlt)]].
  - (* equal operands: the quotient is one *)
    assert (q = 9007199254740992%positive) by nia.
    assert (r = 0) by nia. subst q r ey.
    rewrite new_location_exact. rewrite Z.sub_diag.
    exists 4503599627370496%positive, (-52). split; [reflexivity|].
    right. split; reflexivity.
  - (* a smaller exponent *)
    destruct (@binary_round_aux_normal false q (ex - ey - 53)
                                       (new_location (Zpos my) r))
      as (m & e' & -> & Bm & He'); [lia|lia|].
    assert (He'' : e' <= -52) by lia.
    replace (e' <=? emax - prec) with true
      by (symmetry; apply Z.leb_le; change (emax - prec) with 971; lia).
    exists m, e'. split; [reflexivity|].
    destruct He' as [He'|(He' & Hm)]; [left; lia|].
    destruct (Z.eq_dec e' (-52)); [right|left; lia].
    split; [assumption|].
    change (2 ^ 52) with 4503599627370496 in Hm. lia.
  - (* the same exponent, a smaller mantissa *)
    subst ey.
    assert (Hq53 : Zpos q < 9007199254740992) by nia.
    assert (Dq' : Zpos (digits2_pos q) = 53)
      by (apply digits_unique; change (2 ^ (53 - 1)) with 4503599627370496;
          change (2 ^ 53) with 9007199254740992; lia).
    destruct (@binary_round_aux_normal false q (ex - ex - 53)
                                       (new_location (Zpos my) r))
      as (m & e' & -> & Bm & He'); [lia|lia|].
    rewrite Dq' in He'.
    replace (e' <=? emax - prec) with true
      by (symmetry; apply Z.leb_le; change (emax - prec) with 971; lia).
    exists m, e'. split; [reflexivity|].
    destruct He' as [He'|(He' & Hm')]; [left; lia|right].
    split; [lia|]. change (2 ^ 52) with 4503599627370496 in Hm'. lia.
Qed.


Lemma digits_mono (p q : positive) :
  Zpos p <= Zpos q -> Zpos (digits2_pos p) <= Zpos (digits2_pos q).
Proof.
  intros Hpq. pose proof (digits2_pos_bounds p) as Bp.
  pose proof (digits2_pos_bounds q) as Bq.
  destruct (Z.le_gt_cases (Zpos (digits2_pos p)) (Zpos (digits2_pos q)))
    as [H|H]; [assumption|].
  assert (2 ^ Zpos (digits2_pos q) <= 2 ^ (Zpos (digits2_pos p) - 1))
    by (apply Z.pow_le_mono_r; lia).
  lia.
Qed.

(** Zero over a count is zero. *)
Lemma zero_share (n : nat) :
  (1 <= n)%nat -> Z.of_nat n < 2 ^ 53 ->
  PrimFloat.div PrimFloat.zero (float_of_Z (Z.of_nat n)) = PrimFloat.zero.
Proof.
  intros Hn Hb. apply Prim2SF_inj. rewrite div_spec.
  destruct (Z.of_nat n) as [|pn|pn] eqn:En; try lia.
  destruct (@Prim2SF_count pn Hb) as (mn & -> & _). reflexivity.
Qed.

(** A count over a count that is not below it is a number of [[0, 1]]. *)
Lemma share_in_unit (c n : nat) :
  (c <= n)%nat -> (1 <= n)%nat -> Z.of_nat n < 2 ^ 53 ->
  PrimFloat.leb PrimFloat.zero
    (PrimFloat.div (float_of_Z (Z.of_nat c)) (float_of_Z (Z.of_nat n))) = true /\
  PrimFloat.leb
    (PrimFloat.div (float_of_Z (Z.of_nat c)) (float_of_Z (Z.of_nat n)))
    PrimFloat.one = true.
Proof.
  intros Hcn Hn Hb.
  destruct c as [|c].
  - change (float_of_Z (Z.of_nat 0)) with PrimFloat.zero.
    rewrite zero_share by assumption. split; reflexivity.
  - rewrite !leb_spec, div_spec. unfold SF64div.
    change (Prim2SF PrimFloat.zero) with (S754_zero false).
    change (Prim2SF PrimFloat.one)
      with (S754_finite false 4503599627370496 (-52)).
    assert (Hc : Z.of_nat (S c) <= Z.of_nat n) by lia.
    destruct (Z.of_nat n) as [|pn|pn] eqn:En; try lia.
    destruct (Z.of_nat (S c)) as [|pc|pc] eqn:Ec; try lia.
    destruct (@Prim2SF_count pn Hb) as (mn & -> & Vn & Bn).
    destruct (@Prim2SF_count pc ltac:(lia)) as (mc & -> & Vc & Bc).
    pose proof (digits_mono Hc) as Hd.
    pose proof (digits2_pos_bounds pc) as Bpc.
    pose proof (digits2_pos_bounds pn) as Bpn.
    assert (Hdn : Zpos (digits2_pos pn) <= 53).
    { destruct (Z.le_gt_cases (Zpos (digits2_pos pn)) 53) as [H|H];
        [assumption|].
      assert (2 ^ 53 <= 2 ^ (Zpos (digits2_pos pn) - 1))
        by (apply Z.pow_le_mono_r; lia).
      lia. }
    destruct (@SFdiv_at_most_one mc mn (Zpos (digits2_pos pc) - 53)
                                 (Zpos (digits2_pos pn) - 53))
      as (m & e & -> & He); try assumption; try lia.
    + destruct (Z.eq_dec (Zpos (digits2_pos pc)) (Zpos (digits2_pos pn)))
        as [E|E]; [right|left; lia].
      split; [lia|]. rewrite Vc, Vn, E.
      apply Z.mul_le_mono_nonneg_r; [|assumption].
      apply Z.pow_nonneg. lia.
    + split; [reflexivity|].
      unfold SFleb. cbn [SFcompare].
      destruct He as [Hlt|(-> & ->)]; [|reflexivity].
      now rewrite (proj2 (Z.compare_lt_iff _ _) Hlt).
Qed.

End Rounding64.

(** * Properties of the engine in binary64 *)

Section Binary64Facts.

Import Binary64.
Variable Date : Type.

Local Abbreviation float := PrimFloat.float.
Local Abbreviation zero := PrimFloat.zero.
Local Abbreviation run64 := (run_strategy_logic (F := float) (Date := Date)).

(** *** Binary64 numbers, from the specification of their operations *)

Lemma Prim2SF_zero : FloatOps.Prim2SF zero = SpecFloat.S754_zero false.
Proof. reflexivity. Qed.

Lemma below_zero_not_above (x : float) :
  PrimFloat.ltb x zero = true -> PrimFloat.leb zero x = false.
Proof.
  rewrite FloatAxioms.ltb_spec, FloatAxioms.leb_spec, Prim2SF_zero.
  destruct (FloatOps.Prim2SF x) as [s|s| |s m e]; try destruct s; cbv;
    congruence.
Qed.

(** A finite number is a zero or has a mantissa and an exponent. *)
Lemma finite_cases (x : float) :
  PrimFloat.is_finite x = true ->
  (exists s, FloatOps.Prim2SF x = SpecFloat.S754_zero s) \/
  (exists s m e, FloatOps.Prim2SF x = SpecFloat.S754_finite s m e).
Proof.
  unfold PrimFloat.is_finite, PrimFloat.is_nan, PrimFloat.is_infinity.
  rewrite !FloatAxioms.eqb_spec, FloatAxioms.abs_spec.
  change (FloatOps.Prim2SF PrimFloat.infinity)
    with (SpecFloat.S754_infinity false).
  destruct (FloatOps.Prim2SF x) as [s|s| |s m e]; try destruct s; cbv;
    try discriminate; eauto.
Qed.

Lemma positive_finite_cases (x : float) :
  positive_finite x = true ->
  exists m e, FloatOps.Prim2SF x = SpecFloat.S754_finite false m e.
Proof.
  unfold positive_finite. intros H. apply andb_prop in H as (Hf & Hp).
  rewrite FloatAxioms.ltb_spec, Prim2SF_zero in Hp.
  destruct (finite_cases _ Hf) as [(s & E)|(s & m & e & E)]; rewrite E in *.
  - discriminate Hp.
  - destruct s; [discriminate Hp|eauto].
Qed.

(** Nothing held and nothing paid is worth zero at any finite close. *)
Lemma nothing_is_worth_zero (p : float) :
  PrimFloat.is_finite p = true ->
  PrimFloat.add (PrimFloat.mul zero p) zero = zero.
Proof.
  intros Hf. apply FloatAxioms.Prim2SF_inj.
  rewrite FloatAxioms.add_spec, FloatAxioms.mul_spec, Prim2SF_zero.
  destruct (finite_cases _ Hf) as [(s & ->)|(s & m & e & ->)];
    destruct s; reflexivity.
Qed.

Lemma zero_times_positive (p : float) :
  positive_finite p = true -> PrimFloat.mul zero p = zero.
Proof.
  intros Hp. apply FloatAxioms.Prim2SF_inj.
  rewrite FloatAxioms.mul_spec, Prim2SF_zero.
  destruct (positive_finite_cases _ Hp) as (m & e & ->). reflexivity.
Qed.

(** Zero times any number, NaN and the infinities included, is not above
    zero: with no buy the test [total_inv > 0] fails. *)
Lemma zero_times_not_above_zero (a : float) :
  PrimFloat.ltb zero (PrimFloat.mul zero a) = false.
Proof.
  rewrite FloatAxioms.ltb_spec, FloatAxioms.mul_spec, Prim2SF_zero.
  destruct (FloatOps.Prim2SF a) as [s|s| |s m e]; try destruct s; reflexivity.
Qed.

Lemma buy_level_not_reached (b : float) :
  buy_level_below_zero b = true ->
  (of_Z 0 <=? - b / of_Z 100)%num = false.
Proof. apply below_zero_not_above. Qed.

Lemma zero_not_above_zero : ((of_Z 0 : float) <? of_Z 0)%num = false.
Proof. reflexivity. Qed.

(** The buy level is below zero for every finite [b_pct] of a tenth or
    more, the least value the slider of the page gives: the quotient
    [-b_pct / 100] does not underflow. *)
Lemma buy_level_from_a_tenth (b : float) :
  PrimFloat.is_finite b = true ->
  PrimFloat.leb (ratio 1 10) b = true ->
  buy_level_below_zero b = true.
Proof.
  intros Hf Hb. unfold buy_level_below_zero.
  rewrite FloatAxioms.ltb_spec, FloatAxioms.div_spec, FloatAxioms.opp_spec.
  unfold FloatAxioms.SF64div.
  rewrite FloatAxioms.leb_spec in Hb.
  change (FloatOps.Prim2SF (ratio 1 10))
    with (SpecFloat.S754_finite false 7205759403792794 (-56)) in Hb.
  change (FloatOps.Prim2SF (float_of_Z 100))
    with (SpecFloat.S754_finite false 7036874417766400 (-46)).
  rewrite Prim2SF_zero.
  pose proof (FloatAxioms.Prim2SF_valid b) as Hv.
  destruct (finite_cases _ Hf) as [(sb & E)|(sb & mb & eb & E)];
    rewrite E in *; [discriminate Hb|].
  destruct sb; [discriminate Hb|].
  assert (He : (-56 <= eb)%Z).
  { unfold SpecFloat.SFleb in Hb. cbn [SpecFloat.SFcompare] in Hb.
    destruct (Z.compare_spec (-56) eb); [lia|lia|discriminate Hb]. }
  cbn [SpecFloat.valid_binary] in Hv.
  destruct (@bounded_canonical mb eb Hv) as (_ & _ & Hd).
  specialize (Hd ltac:(lia)).
  pose proof (digits2_pos_bounds mb) as Bm. rewrite Hd in Bm.
  cbn [SpecFloat.SFopp SpecFloat.SFdiv xorb negb].
  unfold SpecFloat.SFdiv_core_binary. cbn [SpecFloat.Zdigits2].
  rewrite Hd.
  change (Zpos (SpecFloat.digits2_pos 7036874417766400)) with 53%Z.
  rewrite fexp64.
  replace (Z.min (Z.max (53 + eb - (53 + -46) - 53) (-1074)) (eb - -46))%Z
    with (eb - 7)%Z by lia.
  replace (eb - -46 - (eb - 7))%Z with 53%Z by lia.
  rewrite Z.shiftl_mul_pow2 by lia.
  pose proof (Z_div_mod (Zpos mb * 2 ^ 53) 7036874417766400 ltac:(lia))
    as Hdiv.
  destruct (Z.div_eucl (Zpos mb * 2 ^ 53) 7036874417766400) as [q r].
  destruct Hdiv as (Hq & Hr).
  change (2 ^ (53 - 1))%Z with 4503599627370496%Z in Bm.
  change (2 ^ 53)%Z with 9007199254740992%Z in *.
  assert (Lq : (1 <= q)%Z) by nia.
  destruct q as [|q|q]; try lia.
  destruct (@binary_round_aux_pos true q (eb - 7)
              (SpecFloat.new_location 7036874417766400 r) ltac:(lia))
    as [(m' & e' & ->)| ->]; reflexivity.
Qed.


(** *** Day 0 *)

(** C8, as the code has it.  The change of day 0 is zero and, the buy level
    [-b_pct / 100] being a number below zero, day 0 does not trade: once
    index 0 alone is processed both counters are zero, cash and shares are
    still zero and, the close being finite, the trajectory is [[0]]. *)
Theorem day0_never_trades (p : float) (prices : list float) (b s a : float) :
  PrimFloat.is_finite p = true ->
  buy_level_below_zero b = true ->
  nth_error (changes (p :: prices)) 0 = Some zero /\
  state_after b s a (p :: prices) 1 = mkState zero zero 0 0 [zero].
Proof.
  intros Hp Hb. split; [reflexivity|].
  rewrite state_after_1
    by first [now apply buy_level_not_reached | apply zero_not_above_zero].
  change (of_Z 0 : float) with zero.
  change (zero * p + zero)%num with (PrimFloat.add (PrimFloat.mul zero p) zero).
  now rewrite nothing_is_worth_zero.
Qed.

(** *** Counting *)


(** *** A single observation *)

(** C3, as the code has it.  On a frame of exactly one row, with a finite
    positive close and a buy level below zero, the run succeeds: no buy,
    no sell, the trajectory [[0]], and every statistic zero.  On the empty
    frame it raises [IndexError]. *)
Theorem one_row_runs_and_none_raises (d : Date) (p b s a : float) :
  positive_finite p = true ->
  buy_level_below_zero b = true ->
  run64 b s a [(d, p)] = Ok (mkOutcome [zero] [d] 0 0 zero zero zero zero) /\
  run64 b s a [] = Raise IndexError.
Proof.
  intros Hp Hb. split.
  - assert (Hf : PrimFloat.is_finite p = true)
      by (unfold positive_finite in Hp; now apply andb_prop in Hp).
    assert (Hloop : loop b s a [p] = mkState zero zero 0 0 [zero]).
    { rewrite loop_cons. cbn [combine]. cbn [fold_left].
      rewrite day0
        by first [now apply buy_level_not_reached | apply zero_not_above_zero].
      change (of_Z 0 : float) with zero.
      change (zero * p + zero)%num
        with (PrimFloat.add (PrimFloat.mul zero p) zero).
      now rewrite nothing_is_worth_zero. }
    unfold run_strategy_logic. cbn [closes map snd]. rewrite Hloop.
    cbn [history b_cnt s_cnt shares].
    unfold cum_ret_of.
    change (of_Z 0 <? of_nat 0 * a)%num
      with (PrimFloat.ltb zero (PrimFloat.mul zero a)).
    rewrite zero_times_not_above_zero. cbn [bind].
    change (mdd_of [zero]) with (Ok zero). cbn [bind last_item last].
    change (zero * p)%num with (PrimFloat.mul zero p).
    now rewrite zero_times_positive.
  - unfold run_strategy_logic, cum_ret_of. cbn [closes map loop].
    change (history (fold_left (day b s a) (combine [] (changes [])) init_state))
      with (@nil float).
    destruct (of_Z 0 <? _)%num; reflexivity.
Qed.

(** *** The cumulative return *)

(** C6. On every frame that is not empty the cumulative return is the
    entry [N - 1] of the trajectory divided by [b_cnt * amt], minus one,
    when [b_cnt * amt] is above zero, and zero otherwise; it is zero when
    no buy was made, whatever the amount: the division is not evaluated
    then. *)
Theorem cumulative_return_formula (df : frame Date) (b s a : float) :
  df <> [] ->
  exists o e,
    run64 b s a df = Ok o /\
    nth_error (out_history o) (length df - 1) = Some e /\
    let total_inv :=
      PrimFloat.mul (float_of_Z (Z.of_nat (out_b_cnt o))) a in
    (PrimFloat.ltb zero total_inv = true ->
     cum_ret o = PrimFloat.sub (PrimFloat.div e total_inv) PrimFloat.one) /\
    (PrimFloat.ltb zero total_inv = false -> cum_ret o = zero) /\
    (out_b_cnt o = 0%nat -> cum_ret o = zero).
Proof.
  intros Hdf.
  destruct (cum_ret_of_run b s a Hdf) as (o & e & Hrun & He & Hcr).
  exists o, e. split; [exact Hrun|]. split; [exact He|].
  cbv zeta.
  change (of_Z 0 <? of_nat (out_b_cnt o) * a)%num
    with (PrimFloat.ltb zero
            (PrimFloat.mul (float_of_Z (Z.of_nat (out_b_cnt o))) a)) in Hcr.
  split; [|split].
  - intros Hpos. rewrite Hpos in Hcr. exact Hcr.
  - intros Hpos. rewrite Hpos in Hcr. exact Hcr.
  - intros Hn. rewrite Hn in Hcr.
    change (float_of_Z (Z.of_nat 0)) with zero in Hcr.
    now rewrite zero_times_not_above_zero in Hcr.
Qed.
(** *** The win rate *)

(** The steps [np.diff(h) > 0] counts are the rises of [h]. *)
Lemma count_rises (h : list float) :
  count_occ bool_dec (map (fun d => (of_Z 0 <? d)%num) (np_diff h)) true =
  rises h.
Proof.
  induction h as [|x [|y t] IH]; [reflexivity|reflexivity|].
  change (np_diff (x :: y :: t)) with ((y - x)%num :: np_diff (y :: t)).
  change (rises (x :: y :: t))
    with (Nat.add (if PrimFloat.ltb x y then 1%nat else 0%nat)
                  (rises (y :: t))).
  cbn [map count_occ]. rewrite IH.
  change (of_Z 0 <? y - x)%num
    with (PrimFloat.ltb zero (PrimFloat.sub y x)).
  rewrite difference_above_zero.
  destruct (PrimFloat.ltb x y); reflexivity.
Qed.

Lemma win_rate_of_rises (h : list float) :
  (2 <= length h)%nat ->
  win_rate_of h =
  PrimFloat.div (float_of_Z (Z.of_nat (rises h)))
                (float_of_Z (Z.of_nat (length h - 1))).
Proof.
  intros Hlen. unfold win_rate_of.
  replace (1 <? length h)%nat with true
    by (symmetry; apply Nat.ltb_lt; lia).
  unfold mean_bool. rewrite count_rises, length_map, length_np_diff.
  replace (Nat.pred (length h)) with (length h - 1)%nat by lia.
  reflexivity.
Qed.

(** C7. On a frame of [N] rows the win rate is the number of days [i >= 1]
    with [E[i] > E[i-1]], divided by [N - 1]; it is zero when [N <= 1]; and
    it is a number of [[0, 1]].  ([N] is at most [2^53], so that the counts
    are binary64 numbers.) *)
Theorem win_rate_is_share_of_rises (df : frame Date) (b s a : float) :
  df <> [] ->
  (Z.of_nat (length df) <= 2 ^ 53)%Z ->
  exists o,
    run64 b s a df = Ok o /\
    length (out_history o) = length df /\
    (length df <= 1 -> win_rate o = zero)%nat /\
    (2 <= length df ->
     win_rate o =
     PrimFloat.div (float_of_Z (Z.of_nat (rises (out_history o))))
                   (float_of_Z (Z.of_nat (length df - 1))))%nat /\
    PrimFloat.leb zero (win_rate o) = true /\
    PrimFloat.leb (win_rate o) PrimFloat.one = true.
Proof.
  intros Hdf Hbound.
  destruct (run_ok b s a Hdf) as (cr & md & lp & _ & _ & _ & Hrun).
  eexists. split; [exact Hrun|]. cbn [out_history win_rate].
  assert (Hlen : length (history (loop b s a (closes df))) = length df)
    by (rewrite length_history_loop; unfold closes; apply length_map).
  set (h := history (loop b s a (closes df))) in *.
  split; [exact Hlen|].
  assert (Hsmall : (length df <= 1)%nat -> win_rate_of h = zero).
  { intros H1. unfold win_rate_of.
    replace (1 <? length h)%nat with false
      by (symmetry; apply Nat.ltb_ge; lia).
    reflexivity. }
  assert (Hlarge : (2 <= length df)%nat ->
                   win_rate_of h =
                   PrimFloat.div (float_of_Z (Z.of_nat (rises h)))
                                 (float_of_Z (Z.of_nat (length df - 1)))).
  { intros H2. rewrite win_rate_of_rises by lia. now rewrite Hlen. }
  split; [exact Hsmall|]. split; [exact Hlarge|].
  destruct (Nat.le_gt_cases (length df) 1) as [H1|H2].
  - rewrite Hsmall by assumption. split; reflexivity.
  - rewrite Hlarge by lia. apply share_in_unit.
    + pose proof (rises_bound h). lia.
    + lia.
    + lia.
Qed.

(** *** A run without a buy *)

Lemma nothing_everywhere (prices : list float) :
  Forall (fun p => positive_finite p = true) prices ->
  map (fun p => (of_Z 0 * p + of_Z 0)%num) prices =
  repeat zero (length prices).
Proof.
  induction 1 as [|p prices Hp _ IH]; [reflexivity|].
  cbn [map length repeat]. rewrite IH. f_equal.
  apply nothing_is_worth_zero.
  unfold positive_finite in Hp. now apply andb_prop in Hp.
Qed.

Lemma accumulate_zeros (n : nat) :
  accumulate np_maximum zero (repeat zero n) = repeat zero n.
Proof.
  induction n as [|n IH]; [reflexivity|].
  cbn [repeat accumulate].
  change (np_maximum zero zero) with zero. now rewrite IH.
Qed.

Lemma mdd_of_zeros (n : nat) : mdd_of (repeat zero n) = Ok zero.
Proof.
  unfold mdd_of.
  replace (np_maximum_accumulate (repeat zero n)) with (repeat zero n)
    by (destruct n; [reflexivity|]; cbn [repeat np_maximum_accumulate];
        now rewrite accumulate_zeros).
  replace (np_any (repeat zero n)) with false; [reflexivity|].
  induction n as [|n IH]; [reflexivity|]. cbn [repeat np_any existsb].
  unfold np_any in IH. now rewrite <- IH.
Qed.

Lemma rises_zeros (n : nat) : rises (repeat zero n) = 0%nat.
Proof.
  induction n as [|[|n] IH]; [reflexivity|reflexivity|].
  cbn [repeat] in *.
  change (rises (zero :: zero :: repeat zero n))
    with (Nat.add (if PrimFloat.ltb zero zero then 1%nat else 0%nat)
                  (rises (zero :: repeat zero n))).
  now rewrite IH.
Qed.

Lemma win_rate_of_zeros (n : nat) :
  (Z.of_nat n <= 2 ^ 53)%Z -> win_rate_of (repeat zero n) = zero.
Proof.
  intros Hn. destruct (Nat.le_gt_cases n 1) as [H1|H2].
  - unfold win_rate_of. rewrite repeat_length.
    replace (1 <? n)%nat with false by (symmetry; apply Nat.ltb_ge; lia).
    reflexivity.
  - rewrite win_rate_of_rises by (rewrite repeat_length; lia).
    rewrite rises_zeros, repeat_length.
    change (float_of_Z (Z.of_nat 0)) with zero.
    apply zero_share; lia.
Qed.

Lemma last_item_in (a : list float) (x : float) :
  last_item a = Ok x -> In x a.
Proof.
  destruct a as [|y t]; cbn [last_item]; [discriminate|]. intros [= <-].
  revert y. induction t as [|z t IH]; intros y; [now left|].
  rewrite last_cons. right. apply IH.
Qed.

(** X4. A run that made no buy made no sale either: on finite positive
    closes its trajectory is zero on every day, and the cumulative return,
    the maximum drawdown, the win rate and the final position value are
    all zero. *)
Theorem no_buy_means_all_zero (df : frame Date) (b s a : float) :
  df <> [] ->
  Forall (fun p => positive_finite p = true) (closes df) ->
  (Z.of_nat (length df) <= 2 ^ 53)%Z ->
  exists o,
    run64 b s a df = Ok o /\
    (out_b_cnt o = 0%nat ->
     out_s_cnt o = 0%nat /\
     out_history o = repeat zero (length df) /\
     cum_ret o = zero /\ mdd o = zero /\ win_rate o = zero /\
     final_value o = zero).
Proof.
  intros Hdf Hps Hbound.
  destruct (run_ok b s a Hdf) as (cr & md & lp & Hcr & Hmd & Hlp & Hrun).
  eexists. split; [exact Hrun|].
  cbn [out_b_cnt out_s_cnt out_history cum_ret mdd win_rate final_value].
  intros Hb.
  assert (Hlen : length (closes df) = length df)
    by (unfold closes; apply length_map).
  pose proof (loop_no_buy b s a (closes df) zero_not_above_zero Hb) as Hloop.
  rewrite (nothing_everywhere Hps), Hlen in Hloop.
  rewrite Hloop in Hcr, Hmd |- *. cbn [history b_cnt s_cnt shares] in *.
  split; [reflexivity|]. split; [reflexivity|].
  split; [|split; [|split]].
  - unfold cum_ret_of in Hcr.
    change (of_Z 0 <? of_nat 0 * a)%num
      with (PrimFloat.ltb zero (PrimFloat.mul zero a)) in Hcr.
    rewrite zero_times_not_above_zero in Hcr. now injection Hcr.
  - rewrite mdd_of_zeros in Hmd. now injection Hmd.
  - now apply win_rate_of_zeros.
  - change (of_Z 0 * lp)%num with (PrimFloat.mul zero lp).
    apply zero_times_positive.
    apply last_item_in in Hlp. rewrite Forall_forall in Hps. now apply Hps.
Qed.

End Binary64Facts.

(** * The engine on concrete series *)

Section Examples.

Import Binary64.

Local Abbreviation zero := PrimFloat.zero.
Local Abbreviation run_x :=
  (run_strategy_logic (F := PrimFloat.float) (Date := nat)).

(** *** The claims that fail, at an input *)

(** C2 fails for an amount of zero: the run returns its statistics, a buy
    included. *)
Lemma zero_amount_is_accepted :
  PrimFloat.ltb zero zero = false /\
  exists o,
    run_x float_b float_s zero (dated two_rows) = Ok o /\
    out_b_cnt o = 1%nat /\ out_s_cnt o = 0%nat /\
    length (out_history o) = 2%nat.
Proof.
  split; [reflexivity|].
  eexists. split; [reflexivity|]. vm_compute. auto.
Qed.

(** C3 fails on the empty frame: [prices[-1]] raises, no outcome is
    returned.  It fails on a single row too when the buy threshold is so
    small that [-b_pct / 100] is [-0.0]: the change of the first day, zero,
    reaches that level, and the day buys. *)
Lemma empty_frame_raises_and_tiny_threshold_buys :
  run_x float_b float_s float_amt [] = Raise IndexError /\
  PrimFloat.ltb zero tiny = true /\
  buy_level_below_zero tiny = false /\
  positive_finite (float_of_Z 100) = true /\
  exists o,
    run_x tiny float_s float_amt [(0%nat, float_of_Z 100)] = Ok o /\
    out_b_cnt o = 1%nat /\ out_s_cnt o = 0%nat /\
    cum_ret o = PrimFloat.opp PrimFloat.one.
Proof.
  split; [reflexivity|]. split; [reflexivity|]. split; [reflexivity|].
  split; [reflexivity|].
  eexists. split; [reflexivity|]. vm_compute. auto.
Qed.

(** C8 fails for the smallest positive buy threshold: [-b_pct / 100] is
    [-0.0], which the zero change of day 0 reaches, and day 0 buys ten
    shares at the close of 100. *)
Lemma day0_buys_at_tiny_threshold :
  let st := state_after tiny float_s float_amt spec_example 1 in
  PrimFloat.ltb zero tiny = true /\
  PrimFloat.ltb zero float_s = true /\
  Forall (fun p => positive_finite p = true) spec_example /\
  PrimFloat.div (PrimFloat.opp tiny) (float_of_Z 100) = PrimFloat.neg_zero /\
  PrimFloat.leb zero PrimFloat.neg_zero = true /\
  b_cnt st = 1%nat /\
  shares st = float_of_Z 10 /\
  cash st = float_of_Z (-1000).
Proof.
  vm_compute. repeat split. repeat constructor.
Qed.


(** *** Rounding *)

(** C4 fails in binary64.  On the closes 100, 99, 100.5, 107.5 with the
    default parameters, day 1 buys, day 2 sells for the full amount and
    day 3 sells what is left: [val = shares * p] is below [amt].  Rounded,
    [val / p] is one unit in the last place above [shares], and the
    subtraction leaves [-2^-55] shares. *)
Theorem capped_sell_rounds_below_zero :
  let st := state_after float_b float_s
                        float_amt rounding_example in
  PrimFloat.ltb PrimFloat.zero (shares (st 3%nat)) = true /\
  s_cnt (st 3%nat) = 1%nat /\ s_cnt (st 4%nat) = 2%nat /\
  PrimFloat.ltb (PrimFloat.mul (shares (st 3%nat)) (ratio 215 2))
                float_amt = true /\
  PrimFloat.ltb (shares (st 4%nat)) PrimFloat.zero = true /\
  shares (st 4%nat) =
  PrimFloat.opp (PrimFloat.div PrimFloat.one
                               (float_of_Z (2 ^ 55))) /\
  shares (loop float_b float_s float_amt
               rounding_example) = shares (st 4%nat).
Proof. vm_compute. repeat split. Qed.

(** *** The running peak of zero *)

(** C5 fails on the closes 100, 99, 98 and 105 with the default
    parameters.  Days 1 and 2 buy; after day 2 the equity is about -10.1
    while the running peak is still the zero of day 0.  Day 3 sells at a
    profit and makes the peak positive, so that [peak.any()] holds and the
    drawdowns are divided entry by entry: those of days 1 and 2 are a
    negative number over zero, and [np.nanmin] returns minus infinity. *)
Theorem zero_peak_gives_minus_infinity :
  exists o e1 e2,
    run_x float_b float_s float_amt (dated two_falls_example) = Ok o /\
    Forall (fun p => positive_finite p = true) two_falls_example /\
    out_b_cnt o = 2%nat /\ out_s_cnt o = 1%nat /\
    nth_error (out_history o) 1 = Some e1 /\
    nth_error (out_history o) 2 = Some e2 /\
    PrimFloat.ltb e1 zero = true /\
    PrimFloat.ltb e2 (float_of_Z (-10)) = true /\
    firstn 3 (np_maximum_accumulate (out_history o)) = [zero; zero; zero] /\
    np_any (np_maximum_accumulate (out_history o)) = true /\
    mdd o = PrimFloat.neg_infinity.
Proof.
  eexists. eexists. eexists. split; [reflexivity|].
  split; [repeat constructor|]. vm_compute. repeat split.
Qed.

(** The specification's example in binary64: the equity of day 1 rounds
    to [-2^-43], below a running peak of zero, and the maximum drawdown
    returned is minus infinity. *)
Example spec_example_binary64 :
  exists o,
    run_x float_b float_s float_amt (dated spec_example) = Ok o /\
    out_b_cnt o = 1%nat /\ out_s_cnt o = 1%nat /\
    nth_error (out_history o) 1 =
    Some (PrimFloat.opp (PrimFloat.div PrimFloat.one
                                       (float_of_Z (2 ^ 43)))) /\
    mdd o = PrimFloat.neg_infinity.
Proof.
  eexists. split; [reflexivity|]. vm_compute. repeat split.
Qed.

(** *** The theorems at concrete inputs *)


Lemma day0_never_trades_witness :
  PrimFloat.is_finite (float_of_Z 100) = true /\
  buy_level_below_zero float_b = true /\
  state_after float_b float_s float_amt spec_example 1 =
  mkState zero zero 0 0 [zero].
Proof.
  split; [reflexivity|]. split; [reflexivity|].
  apply (@day0_never_trades (float_of_Z 100)
                            [float_of_Z 99; ratio 201 2; float_of_Z 102]
                            float_b float_s float_amt);
    reflexivity.
Defined.


Lemma one_row_runs_and_none_raises_witness :
  run_x float_b float_s float_amt [(0%nat, float_of_Z 100)] =
  Ok (mkOutcome [zero] [0%nat] 0 0 zero zero zero zero) /\
  run_x float_b float_s float_amt [] = Raise IndexError.
Proof.
  apply (@one_row_runs_and_none_raises nat 0%nat (float_of_Z 100)
                                       float_b float_s float_amt);
    reflexivity.
Defined.

(** The specification's example: one buy of 1000, a last equity of about
    15.38, a cumulative return of about -98.46 %. *)
Lemma cumulative_return_formula_witness :
  exists o e,
    run_x float_b float_s float_amt (dated spec_example) = Ok o /\
    nth_error (out_history o) 3 = Some e /\
    out_b_cnt o = 1%nat /\
    cum_ret o = PrimFloat.sub (PrimFloat.div e float_amt) PrimFloat.one /\
    PrimFloat.ltb (ratio 1537 100) e = true /\
    PrimFloat.ltb e (ratio 1538 100) = true /\
    PrimFloat.ltb (ratio (-9847) 10000) (cum_ret o) = true /\
    PrimFloat.ltb (cum_ret o) (ratio (-9846) 10000) = true.
Proof.
  destruct (@cumulative_return_formula nat (dated spec_example)
                                       float_b float_s float_amt)
    as (o & e & Hrun & He & Hpos & _ & _); [discriminate|].
  exists o, e. split; [exact Hrun|]. split; [exact He|].
  vm_compute in Hrun. injection Hrun as <-.
  vm_compute in He. injection He as <-.
  split; [reflexivity|]. split; [apply Hpos; reflexivity|].
  vm_compute. repeat split.
Defined.

(** The specification's example: of the three steps of the trajectory the
    last two are rises, and the win rate is 2/3. *)
Lemma win_rate_is_share_of_rises_witness :
  exists o,
    run_x float_b float_s float_amt (dated spec_example) = Ok o /\
    length (out_history o) = 4%nat /\
    rises (out_history o) = 2%nat /\
    win_rate o = PrimFloat.div (float_of_Z 2) (float_of_Z 3) /\
    PrimFloat.leb zero (win_rate o) = true /\
    PrimFloat.leb (win_rate o) PrimFloat.one = true.
Proof.
  destruct (@win_rate_is_share_of_rises nat (dated spec_example)
                                        float_b float_s float_amt)
    as (o & Hrun & Hlen & _ & Hw & H0 & H1);
    [discriminate|vm_compute; discriminate|].
  exists o. split; [exact Hrun|]. split; [exact Hlen|].
  specialize (Hw ltac:(cbn; lia)).
  split; [|split; [|split; assumption]].
  - vm_compute in Hrun. injection Hrun as <-. reflexivity.
  - rewrite Hw. vm_compute in Hrun. injection Hrun as <-. reflexivity.
Defined.

(** On the closes 100 and 98 a buy needs a fall of 3 %: none is made. *)
Lemma no_buy_means_all_zero_witness :
  exists o,
    run_x (float_of_Z 3) float_s float_amt (dated two_rows) = Ok o /\
    out_b_cnt o = 0%nat /\
    out_s_cnt o = 0%nat /\
    out_history o = [zero; zero] /\
    cum_ret o = zero /\ mdd o = zero /\ win_rate o = zero /\
    final_value o = zero.
Proof.
  destruct (@no_buy_means_all_zero nat (dated two_rows)
                                   (float_of_Z 3) float_s float_amt)
    as (o & Hrun & Hall);
    [discriminate|repeat constructor|vm_compute; discriminate|].
  exists o. split; [exact Hrun|].
  assert (Hb : out_b_cnt o = 0%nat)
    by (vm_compute in Hrun; injection Hrun as <-; reflexivity).
  split; [exact Hb|]. exact (Hall Hb).
Defined.

Lemma no_look_ahead_witness :
  exists o o',
    run_x float_b float_s float_amt (dated spec_example) = Ok o /\
    run_x float_b float_s float_amt (firstn 2 (dated spec_example)) = Ok o' /\
    out_history o' = firstn 2 (out_history o) /\
    out_index o' = firstn 2 (out_index o) /\
    (out_b_cnt o' <= out_b_cnt o)%nat /\
    (out_s_cnt o' <= out_s_cnt o)%nat.
Proof.
  eexists. eexists. split; [reflexivity|]. split; [reflexivity|].
  apply (@no_look_ahead PrimFloat.float _ nat float_b float_s float_amt
                        (dated spec_example) 2);
    reflexivity.
Defined.

End Examples.

(** * The page *)

Section PageFacts.

Import Stdlib.Strings.String.

Context {F : Type} {numF : Num F}.
Variable Date : Type.
Variables fmt_pct2 fmt_pct1 fmt_money : F -> string.
Variable get_stock_data : string -> string -> string -> frame (F := F) Date.
Variable ticker_input : string.
Variables buy_pct sell_pct trade_amt : F.

Local Abbreviation step_p :=
  (page_step fmt_pct2 fmt_pct1 fmt_money get_stock_data ticker_input
             buy_pct sell_pct trade_amt).
Local Abbreviation loop_p :=
  (page_loop fmt_pct2 fmt_pct1 fmt_money get_stock_data ticker_input
             buy_pct sell_pct trade_amt).
Local Abbreviation page_p :=
  (page fmt_pct2 fmt_pct1 fmt_money get_stock_data ticker_input
        buy_pct sell_pct trade_amt).
Local Abbreviation has_data_p := (has_data get_stock_data ticker_input).
Local Abbreviation run_p :=
  (run_strategy_logic (Date := Date) buy_pct sell_pct trade_amt).

(** The row the page writes for a period, from the outcome of its run. *)
Local Abbreviation row_of p o :=
  (mkRow (snd p) (out_b_cnt o) (out_s_cnt o)
         (fmt_pct2 (cum_ret o)) (fmt_pct2 (mdd o)) (fmt_pct1 (win_rate o))
         (out_b_cnt o + out_s_cnt o) (fmt_money (final_value o))).

Local Abbreviation data_of p :=
  (get_stock_data ticker_input (fst (fst p)) (snd (fst p))).

Lemma page_step_no_data ncols acc idx (p : period) :
  has_data_p p = false -> step_p ncols acc (idx, p) = Ok acc.
Proof.
  destruct p as [[s e] label]. unfold has_data, page_step. cbn [fst snd].
  now destruct (get_stock_data ticker_input s e).
Qed.

Lemma page_step_data ncols acc idx (p : period) :
  has_data_p p = true -> (idx < ncols)%nat ->
  exists o,
    run_p (data_of p) = Ok o /\
    step_p ncols acc (idx, p) =
    Ok (fst acc ++ [row_of p o],
        snd acc ++ [mkChart idx (snd p) (out_index o) (out_history o)]).
Proof.
  destruct p as [[s e] label]. unfold has_data, page_step. cbn [fst snd].
  intros Hdata Hidx.
  destruct (get_stock_data ticker_input s e) as [|row df] eqn:E;
    [discriminate|].
  destruct (@run_ok F numF Date buy_pct sell_pct trade_amt (row :: df))
    as (cr & md & lp & _ & _ & _ & Hrun); [discriminate|].
  eexists. split; [exact Hrun|]. rewrite Hrun. cbn [bind].
  unfold column_at. apply Nat.ltb_lt in Hidx. rewrite Hidx. reflexivity.
Qed.

Lemma page_loop_ok ncols (l : list (nat * period)) :
  Forall (fun ip => (fst ip < ncols)%nat) l ->
  forall acc,
  exists rows charts,
    loop_p ncols l acc = Ok (fst acc ++ rows, snd acc ++ charts) /\
    Forall2 (fun p r => exists o, run_p (data_of p) = Ok o /\ r = row_of p o)
            (map snd (filter (fun ip => has_data_p (snd ip)) l)) rows /\
    List.length charts = List.length rows /\
    Forall (fun c => (chart_column c < ncols)%nat) charts.
Proof.
  induction 1 as [|[idx p] l Hidx _ IH]; intros acc; cbn [page_loop filter].
  - exists [], []. rewrite !app_nil_r. destruct acc.
    repeat split; constructor.
  - cbn [fst snd] in *. destruct (has_data_p p) eqn:Hdata.
    + destruct (page_step_data acc p Hdata Hidx) as (o & Hrun & ->).
      cbn [bind].
      destruct (IH (fst acc ++ [row_of p o],
                    snd acc ++ [mkChart idx (snd p) (out_index o)
                                        (out_history o)]))
        as (rows & charts & -> & HR & Hlen & Hcols).
      cbn [fst snd]. rewrite <- !app_assoc. cbn [app].
      eexists. eexists. split; [reflexivity|]. cbn [map snd].
      split; [constructor; [now exists o|assumption]|].
      split; [simpl; congruence|]. now constructor.
    + rewrite page_step_no_data by assumption. cbn [bind]. apply IH.
Qed.

Lemma filter_enumerate (A : Type) (f : A -> bool) (a : list A) : forall n,
  map snd (filter (fun ip => f (snd ip)) (combine (seq n (List.length a)) a))
  = filter f a.
Proof.
  induction a as [|x a IH]; intros n; [reflexivity|].
  cbn [List.length seq combine filter snd].
  destruct (f x); cbn [map snd]; now rewrite IH.
Qed.

Lemma enumerate_in_range (A : Type) (a : list A) :
  Forall (fun ip => (fst ip < List.length a)%nat) (enumerate a).
Proof.
  unfold enumerate.
  enough (forall n, Forall (fun ip => (fst ip < n + List.length a)%nat)
                           (combine (seq n (List.length a)) a))
    as H by apply (H 0%nat).
  induction a as [|x a IH]; intros n; cbn [List.length seq combine];
    constructor.
  - cbn [fst]. lia.
  - eapply Forall_impl; [|apply (IH (S n))]. intros ip Hip.
    cbn beta in Hip. lia.
Qed.

Lemma columns_periods mode today :
  List.length (periods mode today) = columns mode.
Proof. now destruct mode. Qed.

(** X7. The page never fails, whatever the data source returns.  Periods
    without data are skipped; each period with data is run and gives one
    row, in the order of the periods, whose total is buys plus sales; as
    many charts are drawn as there are rows, each in a column that exists. *)
Theorem page_never_fails (mode : view_mode) (today : string) :
  exists rows charts,
    page_p mode today = Ok (rows, charts) /\
    Forall2 (fun p r => exists o, run_p (data_of p) = Ok o /\ r = row_of p o)
            (filter has_data_p (periods mode today)) rows /\
    Forall (fun r => row_total r = (row_buys r + row_sells r)%nat) rows /\
    List.length charts = List.length rows /\
    (List.length rows <= columns mode)%nat /\
    Forall (fun c => (chart_column c < columns mode)%nat) charts.
Proof.
  unfold page.
  destruct (@page_loop_ok (columns mode) (enumerate (periods mode today)))
    with (acc := (@nil summary_row, @nil (chart (F := F) Date)))
    as (rows & charts & Hloop & HR & Hlen & Hcols).
  { rewrite <- (columns_periods mode today). apply enumerate_in_range. }
  exists rows, charts. cbn [fst snd app] in Hloop.
  unfold enumerate in HR. rewrite filter_enumerate in HR.
  split; [exact Hloop|]. split; [exact HR|].
  split; [|split; [exact Hlen|split; [|exact Hcols]]].
  - clear - HR. induction HR as [|p r ps rs (o & _ & ->) _ IH]; constructor;
      [reflexivity|assumption].
  - rewrite <- (Forall2_length HR), <- (columns_periods mode today).
    apply filter_length_le.
Qed.

End PageFacts.

(** * The sidebar search *)

Section SearchFacts.

Import Stdlib.Strings.String Search.

Local Open Scope string_scope.

(** *** Substrings *)

Lemma prefix_spec (n h : string) :
  prefix n h = true <-> exists post, h = n ++ post.
Proof.
  revert h. induction n as [|a n IH]; intros h.
  - split; [intros _; now exists h|intros _; now destruct h].
  - destruct h as [|c h]; cbn [prefix append].
    + split; [discriminate|]. now intros (post & [=]).
    + destruct (Ascii.ascii_dec a c) as [->|Hne].
      * rewrite IH. split; intros (post & E); exists post; congruence.
      * split; [discriminate|]. intros (post & [= E _]). congruence.
Qed.

(** [contains] is the search for a substring. *)
Lemma contains_spec (n h : string) :
  contains n h = true <-> exists pre post, h = pre ++ n ++ post.
Proof.
  induction h as [|c h IH]; cbn [contains]; rewrite orb_true_iff, prefix_spec.
  - split.
    + intros [(post & E)|H]; [|discriminate]. now exists "", post.
    + intros (pre & post & E). left.
      destruct pre; [now exists post|discriminate].
  - rewrite IH. split.
    + intros [(post & E)|(pre & post & E)].
      * now exists "", post.
      * exists (String c pre), post. cbn [append]. congruence.
    + intros (pre & post & E). destruct pre as [|a pre].
      * left. now exists post.
      * right. cbn [append] in E. injection E as _ E. now exists pre, post.
Qed.

(** *** The first match *)

Lemma filter_first (A : Type) (f : A -> bool) (l1 l2 : list A) (x : A) :
  Forall (fun y => f y = false) l1 -> f x = true ->
  filter f (l1 ++ x :: l2)%list = x :: filter f l2.
Proof.
  induction 1 as [|y l1 Hy _ IH]; intros Hx; cbn [app filter].
  - now rewrite Hx.
  - rewrite Hy. now apply IH.
Qed.

Lemma filter_none (A : Type) (f : A -> bool) (l : list A) :
  Forall (fun y => f y = false) l -> filter f l = [].
Proof.
  induction 1 as [|y l Hy _ IH]; cbn [filter]; [reflexivity|].
  now rewrite Hy.
Qed.

Lemma codes_not_empty : Forall (fun kv => snd kv <> "") STOCK_DICT.
Proof. repeat constructor; discriminate. Qed.

(** X8. The search proposes the first match.  For a query that is not
    empty, if a name of the table contains the query as a substring and no
    name before it in the table does, the code of that name is what the
    search returns, announces, and puts in the ticker box. *)
Theorem search_returns_first_match
        (query k v : string) (l1 l2 : list (string * string)) :
  query <> "" ->
  STOCK_DICT = (l1 ++ (k, v) :: l2)%list ->
  (exists pre post, k = pre ++ query ++ post) ->
  (forall k' v', In (k', v') l1 ->
                 ~ exists pre post, k' = pre ++ query ++ post) ->
  search query = (v, Success v) /\ ticker_default query = v.
Proof.
  intros Hq Hdict Hk Hbefore.
  assert (Hm : matches query =
               v :: map snd (filter (fun kv => contains query (fst kv)) l2)).
  { unfold matches. rewrite Hdict, filter_first; [reflexivity| |].
    - apply Forall_forall. intros [k' v'] Hin. cbn [fst].
      destruct (contains query k') eqn:E; [|reflexivity].
      apply contains_spec in E. now apply Hbefore in Hin.
    - now apply contains_spec. }
  assert (Hs : search query = (v, Success v)).
  { unfold search. rewrite Hm. destruct query; [congruence|reflexivity]. }
  split; [exact Hs|]. unfold ticker_default, auto_code. rewrite Hs. cbn [fst].
  pose proof codes_not_empty as Hc. rewrite Hdict in Hc.
  apply Forall_app in Hc. destruct Hc as (_ & Hc). inversion Hc as [|? ? Hv _].
  cbn [snd] in Hv. now destruct v.
Qed.

(** X9. Without a match the default stands.  When the query is empty, or
    no name of the table contains it, the search returns no code and the
    ticker box starts with "510300.SS"; a warning is shown in the second
    case only. *)
Theorem search_without_match (query : string) :
  query = "" \/
  (forall k v, In (k, v) STOCK_DICT ->
               ~ exists pre post, k = pre ++ query ++ post) ->
  auto_code query = "" /\
  ticker_default query = "510300.SS" /\
  snd (search query) = (if string_dec query "" then NoNotice else Warning).
Proof.
  intros [->|Hnone]; [now repeat split|].
  assert (Hm : matches query = []).
  { unfold matches. rewrite filter_none; [reflexivity|].
    apply Forall_forall. intros [k v] Hin. cbn [fst].
    destruct (contains query k) eqn:E; [|reflexivity].
    apply contains_spec in E. now apply Hnone in Hin. }
  unfold ticker_default, auto_code, search. rewrite Hm.
  destruct query; [now repeat split|].
  destruct (string_dec _ _); [discriminate|now repeat split].
Qed.

(** X10. Whatever is typed in the search box, the ticker box starts with
    one of the ten codes of the table. *)
Theorem ticker_default_is_listed (query : string) :
  In (ticker_default query) (map snd STOCK_DICT).
Proof.
  unfold ticker_default, auto_code, search.
  destruct query as [|c q]; [now left|].
  unfold matches.
  set (f := fun kv : string * string => contains (String c q) (fst kv)).
  destruct (map snd (filter f STOCK_DICT)) as [|code rest] eqn:E;
    [now left|].
  cbn [fst].
  assert (Hin : In code (map snd STOCK_DICT)).
  { assert (H : In code (map snd (filter f STOCK_DICT)))
      by (rewrite E; now left).
    apply in_map_iff in H. destruct H as (kv & <- & Hkv).
    apply filter_In in Hkv. apply in_map. tauto. }
  destruct code; [|exact Hin]. now left.
Qed.

End SearchFacts.

Section SearchExamples.

Import Stdlib.Strings.String Search.

Local Open Scope string_scope.

Lemma search_returns_first_match_witness :
  search "茅台" = ("600519.SS", Success "600519.SS") /\
  ticker_default "茅台" = "600519.SS".
Proof.
  apply (@search_returns_first_match
           "茅台" "贵州茅台" "600519.SS"
           [("沪深300ETF", "510300.SS")]
           (List.tl (List.tl STOCK_DICT))).
  - discriminate.
  - reflexivity.
  - now exists "贵州", "".
  - intros k' v' [[= <- <-]|[]] Hk. apply contains_spec in Hk.
    discriminate Hk.
Defined.

Lemma search_without_match_witness :
  auto_code "苹果" = "" /\
  ticker_default "苹果" = "510300.SS" /\
  snd (search "苹果") = Warning.
Proof.
  apply (@search_without_match "苹果"). right.
  intros k v Hin.
  repeat (destruct Hin as [[= <- <-]|Hin];
          [intros Hk; apply contains_spec in Hk; discriminate Hk|]).
  destruct Hin.
Defined.

End SearchExamples.
